(** * fix-imports.py: the import fixer of the TUI migration, embedded in Rocq

    The script rewrites [import { ... } from '@zen/tui';] declarations with
    three regular expressions.  This development embeds

    - Python text as a list of Unicode code points,
    - the fragment of [re] the script uses (classes, literals, greedy
      repetition of a class with backtracking, alternation, capturing groups,
      [re.sub] with a template or a callback),
    - [fix_imports] with its inner callback [fix_import_line],
    - [process_file] and the loop of [main] over an abstract file system,

    and proves the properties of the specification against these definitions. *)

From Stdlib Require Import List NArith String Ascii Bool Arith Lia.
From Stdlib Require Import DecimalString.
Import ListNotations.

Set Implicit Arguments.

(** ** Text *)

(** A Python [str] is a sequence of code points. *)
Abbreviation char := N (only parsing).
Abbreviation text := (list N) (only parsing).

(** An ASCII literal of the script, as text. *)
Definition py (s : string) : text :=
  map N_of_ascii (list_ascii_of_string s).
Arguments py s%_string.

(** The double quote (written by its code so that literals stay plain). *)
Definition dquote : char := 34%N.
Definition squote : char := 39%N.

(** [a == b] on strings. *)
Fixpoint text_eqb (a b : text) : bool :=
  match a, b with
  | [], [] => true
  | x :: a', y :: b' => N.eqb x y && text_eqb a' b'
  | _, _ => false
  end.

(** [s.startswith(p)] *)
Fixpoint starts_with (p s : text) : bool :=
  match p, s with
  | [], _ => true
  | _ :: _, [] => false
  | a :: p', b :: s' => N.eqb a b && starts_with p' s'
  end.

(** [needle in hay] on strings: the substring test. *)
Fixpoint contains (needle hay : text) : bool :=
  starts_with needle hay ||
  match hay with
  | [] => false
  | _ :: hay' => contains needle hay'
  end.

(** ** Character classes of [re] on [str] patterns *)

Definition in_range (lo hi c : char) : bool := N.leb lo c && N.leb c hi.

(** [\s]: the code points for which CPython's [Py_UNICODE_ISSPACE] holds. *)
Definition is_space (c : char) : bool :=
  in_range 9 13 c || in_range 28 32 c || N.eqb c 133 || N.eqb c 160
  || N.eqb c 5760 || in_range 8192 8202 c || N.eqb c 8232 || N.eqb c 8233
  || N.eqb c 8239 || N.eqb c 8287 || N.eqb c 12288.

(** The ASCII part of [\w]: [[A-Za-z0-9_]]. *)
Definition ascii_word (c : char) : bool :=
  in_range 48 57 c || in_range 65 90 c || N.eqb c 95 || in_range 97 122 c.

(** ** Regular expressions *)

(** The constructs the script's three patterns are written with.  Repetition
    is only ever applied to a single character class there, so [Star] and
    [Plus] carry a class. *)
Inductive regex : Type :=
| Eps
| Lit (c : char)
| Cls (p : char -> bool)
| Cat (r1 r2 : regex)
| Alt (r1 r2 : regex)
| Star (p : char -> bool)
| Plus (p : char -> bool)
| Grp (r : regex).

(** A literal run of characters. *)
Fixpoint lit (l : text) : regex :=
  match l with
  | [] => Eps
  | [c] => Lit c
  | c :: l' => Cat (Lit c) (lit l')
  end.

(** A concatenation written as a list, in pattern order. *)
Fixpoint seq (rs : list regex) : regex :=
  match rs with
  | [] => Eps
  | [r] => r
  | r :: rs' => Cat r (seq rs')
  end.

(** What a successful match reports: [group(0)] and the numbered groups. *)
Record match_obj : Type := MatchObj {
  m_whole : text;
  m_groups : list text
}.

(** [m.group(n)] for [n >= 1]. *)
Definition group (m : match_obj) (n : nat) : text :=
  nth (Nat.pred n) (m_groups m) [].

Section Engine.

Variable R : Type.

(** Greedy [p*] followed by the continuation [k]: take as many characters
    of the class as possible, and give them back one at a time while the
    rest of the pattern fails. *)
Fixpoint star (p : char -> bool) (s : text)
         (k : text -> text -> option R) : option R :=
  match s with
  | c :: s' =>
      if p c then
        match star p s' (fun w t => k (c :: w) t) with
        | Some x => Some x
        | None => k [] s
        end
      else k [] s
  | [] => k [] []
  end.

(** The backtracking matcher in continuation-passing style.  [k] receives
    the text consumed by [r], the groups closed so far and the remaining
    input. *)
Fixpoint run (r : regex) (s : text) (g : list text)
         (k : text -> list text -> text -> option R) : option R :=
  match r with
  | Eps => k [] g s
  | Lit c =>
      match s with
      | d :: s' => if N.eqb c d then k [d] g s' else None
      | [] => None
      end
  | Cls p =>
      match s with
      | d :: s' => if p d then k [d] g s' else None
      | [] => None
      end
  | Cat r1 r2 =>
      run r1 s g (fun w1 g1 s1 =>
        run r2 s1 g1 (fun w2 g2 s2 => k (w1 ++ w2) g2 s2))
  | Alt r1 r2 =>
      match run r1 s g k with
      | Some x => Some x
      | None => run r2 s g k
      end
  | Star p => star p s (fun w t => k w g t)
  | Plus p =>
      match s with
      | d :: s' =>
          if p d then star p s' (fun w t => k (d :: w) g t) else None
      | [] => None
      end
  | Grp r1 => run r1 s g (fun w g1 s1 => k w (g1 ++ [w]) s1)
  end.

End Engine.

(** [pattern.match(s)] at the start of [s]: the match and the text after it. *)
Definition match_at (r : regex) (s : text) : option (match_obj * text) :=
  run r s [] (fun w g t => Some (MatchObj w g, t)).

(** ** [re.sub] *)

(** The scan of [re.sub]: leftmost, non-overlapping matches, every other
    character copied.  None of the script's patterns matches the empty
    string (see [patterns_nonempty] below), so an empty match is treated as
    no match. *)
Inductive piece : Type :=
| Copy (c : char)
| Hit (m : match_obj).

Fixpoint scan_fuel (fuel : nat) (r : regex) (s : text) : list piece :=
  match fuel with
  | O => map Copy s
  | S fuel' =>
      match s with
      | [] => []
      | c :: s' =>
          match match_at r s with
          | Some (m, t) =>
              match m_whole m with
              | [] => Copy c :: scan_fuel fuel' r s'
              | _ :: _ => Hit m :: scan_fuel fuel' r t
              end
          | None => Copy c :: scan_fuel fuel' r s'
          end
      end
  end.

Definition scan (r : regex) (s : text) : list piece :=
  scan_fuel (List.length s) r s.

(** The source text and the replacement of a piece. *)
Definition piece_src (p : piece) : text :=
  match p with Copy c => [c] | Hit m => m_whole m end.

Definition piece_out (repl : match_obj -> text) (p : piece) : text :=
  match p with Copy c => [c] | Hit m => repl m end.

(** [re.sub(pattern, repl, s)] with a callback [repl]. *)
Definition re_sub (r : regex) (repl : match_obj -> text) (s : text) : text :=
  flat_map (piece_out repl) (scan r s).

(** A replacement template such as [r'\1, \2']. *)
Inductive titem : Type :=
| TText (t : text)
| TGroup (n : nat).

Definition expand (tpl : list titem) (m : match_obj) : text :=
  flat_map (fun i => match i with TText t => t | TGroup n => group m n end) tpl.

(** ** The script *)

Section FixImports.

(** [\w] on non-ASCII code points is decided by the Unicode database of the
    interpreter ([str.isalnum]); it is not part of the script and is taken
    as a parameter. *)
Variable uni_alnum : char -> bool.

Definition is_word (c : char) : bool :=
  if N.ltb c 128 then ascii_word c else uni_alnum c.

Definition not_rbrace (c : char) : bool := negb (N.eqb c 125).
Definition is_quote (c : char) : bool := N.eqb c squote || N.eqb c dquote.

(** [(import\s+\{[^}]+\})\s+from\s+['"]@zen/tui['"];] *)
Definition import_pattern : regex :=
  seq [ Grp (seq [lit (py "import"); Plus is_space; Lit 123;
                  Plus not_rbrace; Lit 125]);
        Plus is_space; lit (py "from"); Plus is_space;
        Cls is_quote; lit (py "@zen/tui"); Cls is_quote; Lit 59 ].

(** [(\w+)\s+(renderApp|FullscreenLayout)] *)
Definition comma_pattern : regex :=
  seq [ Grp (Plus is_word); Plus is_space;
        Grp (Alt (lit (py "renderApp")) (lit (py "FullscreenLayout"))) ].

(** [(\w+)\s*}] *)
Definition brace_pattern : regex :=
  seq [ Grp (Plus is_word); Star is_space; Lit 125 ].

(** [r'\1, \2'] and [r'\1, FullscreenLayout}'] *)
Definition comma_template : list titem :=
  [TGroup 1; TText (py ", "); TGroup 2].
Definition brace_template : list titem :=
  [TGroup 1; TText (py ", FullscreenLayout}")].

(** The two repairs of the captured statement. *)
Definition fix_commas (import_stmt : text) : text :=
  re_sub comma_pattern (expand comma_template) import_stmt.

Definition add_fullscreen (import_stmt : text) : text :=
  re_sub brace_pattern (expand brace_template) import_stmt.

(** The callback [fix_import_line(match)], closed over [content]. *)
Definition fix_import_line (content : text) (m : match_obj) : text :=
  let import_stmt := group m 1 in
  let has_fullscreen_usage := contains (py "<FullscreenLayout>") content in
  let has_fullscreen_import := contains (py "FullscreenLayout") import_stmt in
  let import_stmt := fix_commas import_stmt in
  let import_stmt :=
    if has_fullscreen_usage && negb has_fullscreen_import
    then add_fullscreen import_stmt
    else import_stmt in
  import_stmt ++ py " from '@zen/tui';".

Definition fix_imports (content : text) : text :=
  re_sub import_pattern (fix_import_line content) content.

End FixImports.

(** ** Files *)

(** What a call into the operating system gives back: a value, or an
    exception with its message [str(e)]. *)
Inductive outcome (A : Type) : Type :=
| Returned (a : A)
| Raised (e : text).
Arguments Returned {A} a.
Arguments Raised {A} e.

(** What the script does to the outside, in order. *)
Inductive event : Type :=
| Read (filepath : text)
| Write (filepath : text) (data : text)
| Print (line : text).

Section Files.

Variable uni_alnum : char -> bool.

(** The file system, left abstract: reading a whole file as UTF-8 text, and
    opening it for writing and writing text to it, which leaves the file
    system in a new state whether or not it raises. *)
Variable world : Type.
Variable read_text : text -> world -> outcome text.
Variable write_text : text -> text -> world -> world * option text.

(** The result of a call: the returned value, the file system after it,
    and the trace of the call. *)
Record result : Type := Result {
  returned : bool;
  after : world;
  trace : list event
}.

(** [f"Error processing {filepath}: {e}"] *)
Definition error_line (filepath e : text) : text :=
  py "Error processing " ++ filepath ++ py ": " ++ e.

Definition process_file (filepath : text) (w : world) : result :=
  match read_text filepath w with
  | Raised e =>
      Result false w [Read filepath; Print (error_line filepath e)]
  | Returned content =>
      if negb (contains (py "renderApp") content) then
        Result false w [Read filepath]
      else
        let new_content := fix_imports uni_alnum content in
        if negb (text_eqb new_content content) then
          match write_text filepath new_content w with
          | (w', None) =>
              Result true w' [Read filepath; Write filepath new_content]
          | (w', Some e) =>
              Result false w' [Read filepath; Write filepath new_content;
                               Print (error_line filepath e)]
          end
        else Result false w [Read filepath]
  end.

(** [Path('/Users/kyle/zen/examples')], and a file found under it by
    [rglob('*.tsx')], named by its path relative to the directory. *)
Definition examples_dir : text := py "/Users/kyle/zen/examples".
Definition tsx_file (rel : text) : text := examples_dir ++ py "/" ++ rel.

(** [str(fixed)] *)
Definition decimal (n : nat) : text :=
  py (NilEmpty.string_of_uint (Nat.to_uint n)).

(** The loop of [main] over the files found, from a count [fixed]. *)
Fixpoint main_loop (files : list text) (w : world) (fixed : nat)
  : nat * world * list event :=
  match files with
  | [] => (fixed, w, [])
  | rel :: files' =>
      let r := process_file (tsx_file rel) w in
      if returned r then
        let '(n, w', tr) := main_loop files' (after r) (S fixed) in
        (n, w', trace r ++ Print (10003%N :: py " Fixed: " ++ rel) :: tr)
      else
        let '(n, w', tr) := main_loop files' (after r) fixed in
        (n, w', trace r ++ tr)
  end.

(** [main()], given the relative paths that [rglob] yields. *)
Definition main (files : list text) (w : world) : world * list event :=
  let '(n, w', tr) := main_loop files w 0 in
  (w', tr ++ [Print (10%N :: py "Fixed " ++ decimal n ++ py " files")]).

End Files.

(** A file system in memory: the files that exist, with their text. Reading
    a file that does not exist raises; writing never does. *)
Module MemFS.

Definition t : Type := list (list N * list N).

Fixpoint lookup (filepath : text) (fs : t) : option text :=
  match fs with
  | [] => None
  | (p, data) :: fs' =>
      if text_eqb p filepath then Some data else lookup filepath fs'
  end.

Definition read_text (filepath : text) (fs : t) : outcome text :=
  match lookup filepath fs with
  | Some data => Returned data
  | None => Raised (py "[Errno 2] No such file or directory")
  end.

Definition write_text (filepath data : text) (fs : t) : t * option text :=
  ((filepath, data) :: fs, None).

End MemFS.

(** * Notions used to state the properties *)

(** ** The language of a pattern *)

(** [matches r w gs]: [w] is a word of [r], and matching it closes the
    groups [gs], in closing order. *)
Inductive matches : regex -> text -> list text -> Prop :=
| M_Eps : matches Eps [] []
| M_Lit c : matches (Lit c) [c] []
| M_Cls (p : char -> bool) c : p c = true -> matches (Cls p) [c] []
| M_Cat r1 r2 w1 w2 g1 g2 :
    matches r1 w1 g1 -> matches r2 w2 g2 ->
    matches (Cat r1 r2) (w1 ++ w2) (g1 ++ g2)
| M_AltL r1 r2 w g : matches r1 w g -> matches (Alt r1 r2) w g
| M_AltR r1 r2 w g : matches r2 w g -> matches (Alt r1 r2) w g
| M_Star (p : char -> bool) w : forallb p w = true -> matches (Star p) w []
| M_Plus (p : char -> bool) w :
    w <> [] -> forallb p w = true -> matches (Plus p) w []
| M_Grp r w g : matches r w g -> matches (Grp r) w (g ++ [w]).

(** ** Declarations of the module *)

(** The module clause that follows the captured statement. *)
Definition from_clause (ws2 ws3 : text) (q1 q2 : char) : text :=
  ws2 ++ py "from" ++ ws3 ++ q1 :: py "@zen/tui" ++ [q2; 59%N].

(** The captured statement: [import], blanks, and a braced list. *)
Definition braced_import (ws1 body : text) : text :=
  py "import" ++ ws1 ++ 123%N :: body ++ [125%N].

Definition blank (ws : text) : Prop := ws <> [] /\ forallb is_space ws = true.

(** [declaration w stmt]: [w] is a declaration of the module [@zen/tui]
    whose import statement is [stmt]. *)
Inductive declaration : text -> text -> Prop :=
| Declaration ws1 body ws2 ws3 q1 q2 :
    blank ws1 -> body <> [] -> forallb not_rbrace body = true ->
    blank ws2 -> blank ws3 -> is_quote q1 = true -> is_quote q2 = true ->
    declaration (braced_import ws1 body ++ from_clause ws2 ws3 q1 q2)
                (braced_import ws1 body).

(** ** The names of a statement *)

(** Blanks, commas and braces separate the names of a statement. *)
Definition separator (c : char) : bool :=
  is_space c || N.eqb c 44 || N.eqb c 123 || N.eqb c 125.

Definition flush (cur : text) : list text :=
  match cur with [] => [] | _ :: _ => [cur] end.

(** One pass over a text: the names completed so far and the name being
    read. *)
Fixpoint lex (cur : text) (s : text) : list text * text :=
  match s with
  | [] => ([], cur)
  | c :: s' =>
      if separator c
      then let (out, cur') := lex [] s' in (flush cur ++ out, cur')
      else lex (cur ++ [c]) s'
  end.

(** The names of a text: its maximal runs free of separators. *)
Definition names (s : text) : list text :=
  let (out, cur) := lex [] s in out ++ flush cur.

Definition same_lex (a b : text) : Prop := forall cur, lex cur a = lex cur b.

(** ** Matches without backtracking *)

(** The class [p] cannot go on into [t]. *)
Definition stops (p : char -> bool) (t : text) : Prop :=
  match t with [] => True | c :: _ => p c = false end.

(** [follows r w gs t]: on the input [w ++ t] the matcher takes [w] for [r]
    at its first attempt, because every repetition inside stops where the
    class ends. *)
Inductive follows : regex -> text -> list text -> text -> Prop :=
| F_Eps t : follows Eps [] [] t
| F_Lit c t : follows (Lit c) [c] [] t
| F_Cls (p : char -> bool) c t : p c = true -> follows (Cls p) [c] [] t
| F_Cat r1 r2 w1 w2 g1 g2 t :
    follows r1 w1 g1 (w2 ++ t) -> follows r2 w2 g2 t ->
    follows (Cat r1 r2) (w1 ++ w2) (g1 ++ g2) t
| F_AltL r1 r2 w g t : follows r1 w g t -> follows (Alt r1 r2) w g t
| F_Star (p : char -> bool) w t :
    forallb p w = true -> stops p t -> follows (Star p) w [] t
| F_Plus (p : char -> bool) w t :
    w <> [] -> forallb p w = true -> stops p t -> follows (Plus p) w [] t
| F_Grp r w g t : follows r w g t -> follows (Grp r) w (g ++ [w]) t.

(** ** Braces and quotes *)

(** Whether the last brace of a text is an opening one ([b] when the text
    has no brace). *)
Fixpoint open_brace (b : bool) (s : text) : bool :=
  match s with
  | [] => b
  | c :: s' =>
      if N.eqb c 123 then open_brace true s'
      else if N.eqb c 125 then open_brace false s'
      else open_brace b s'
  end.

(** Every opening brace of the text is followed by a closing one. *)
Definition closed (s : text) : Prop := open_brace false s = false.

(** In the module clause, the letter [i] only occurs before the closing
    quote. *)
Fixpoint i_before_quote (s : text) : bool :=
  match s with
  | [] => true
  | c :: s' =>
      (if N.eqb c 105
       then match s' with q :: _ => is_quote q | [] => false end
       else true) && i_before_quote s'
  end.

(** The double quotes of a text. *)
Definition dquotes (s : text) : text := filter (N.eqb dquote) s.

(** The statement part of what the callback returns. *)
Definition repaired (ua : char -> bool) (content stmt : text) : text :=
  if contains (py "<FullscreenLayout>") content
     && negb (contains (py "FullscreenLayout") stmt)
  then add_fullscreen ua (fix_commas ua stmt)
  else fix_commas ua stmt.

Definition not_quote (c : char) : bool := negb (is_quote c).

(** ** Imports of other modules *)

Definition not_lbrace (c : char) : bool := negb (N.eqb c 123).

(** A braced import of the module [name]:
    [import { body } from 'name';], with any blanks and quotes. *)
Definition module_import (ws1 body ws2 ws3 : text) (q1 : char) (name : text)
           (q2 : char) : text :=
  braced_import ws1 body ++ ws2 ++ py "from" ++ ws3 ++ q1 :: name ++ [q2; 59%N].

(** An import statement without a brace, such as [import App from './app';],
    [import * as React from 'react';] or [import './app.css';]. *)
Definition plain_import (s : text) : text := py "import" ++ s ++ [59%N].

(** ** The texts of the examples *)

(** A list in which two separators in a row are missing. *)
Definition chained_input : text :=
  py "import { a renderApp FullscreenLayout } from '@zen/tui';".

Definition usage_marker : text := py "<FullscreenLayout>".

Definition bare_import : text := py "import { renderApp } from '@zen/tui';".

(** The rewriting the specification gives for [bare_import], and the one the
    script produces: the blank before the closing brace is consumed. *)
Definition bare_import_spec : text :=
  py "import { renderApp, FullscreenLayout } from '@zen/tui';".

Definition bare_import_fixed : text :=
  py "import { renderApp, FullscreenLayout} from '@zen/tui';".

Definition marked_file : text :=
  bare_import
    ++ 10%N :: py "renderApp(<FullscreenLayout><App /></FullscreenLayout>);".

(** The same import after an import whose brace is not closed and whose
    list names [FullscreenLayout]. *)
Definition nested_file : text :=
  py "import { FullscreenLayout, Box" ++ 10%N :: bare_import
    ++ 10%N :: py "renderApp(<FullscreenLayout><App /></FullscreenLayout>);".

Definition props_file : text :=
  py "import { renderApp, FullscreenLayoutProps } from '@zen/tui';"
    ++ 10%N :: py "renderApp(<FullscreenLayout><App /></FullscreenLayout>);".

(** An import whose only flaw is the quoting, in a file that uses
    [renderApp], and one in a file that does not. *)
Definition quoted_render : text :=
  py "import { renderApp } from " ++ dquote :: py "@zen/tui" ++ [dquote; 59%N].

Definition quoted_box : text :=
  py "import { Box, Text } from " ++ dquote :: py "@zen/tui" ++ [dquote; 59%N].

Definition other_import : text := py "import renderApp from './app';".

(** An import of another module after an import whose brace is not
    closed. *)
Definition unclosed_file : text :=
  py "import { a" ++ 10%N :: other_import
    ++ 10%N :: py "import { c } from '@zen/tui';".

(** A braced import of another module after an import whose brace is not
    closed, and before a declaration that lacks a separator. *)
Definition app_import : text := py "import { run } from './app';".

Definition unclosed_braced_file : text :=
  py "import { a" ++ 10%N :: app_import
    ++ 10%N :: py "import { c renderApp } from '@zen/tui';".

(** An import without a brace between two declarations. *)
Definition react_file : text :=
  py "import { Box renderApp } from '@zen/tui';"
    ++ 10%N :: py "import React from 'react';"
    ++ 10%N :: py "import { c renderApp } from '@zen/tui';".

(** ** Traces *)

(** The files read and the writes attempted in a trace. *)
Definition reads (tr : list event) : list (list N) :=
  flat_map (fun e => match e with Read p => [p] | _ => [] end) tr.

Definition writes (tr : list event) : list (list N * list N) :=
  flat_map (fun e => match e with Write p d => [(p, d)] | _ => [] end) tr.

(** A well-formed import of the module, with two blanks before [from]. *)
Definition spaced_file : text := py "import { renderApp }  from '@zen/tui';".

(** ** Counting characters and lines *)

(** How often a character occurs in a text. *)
Definition occurrences (c : char) (s : text) : nat :=
  List.length (filter (N.eqb c) s).

(** Everything the two templates and the module clause can insert. *)
Definition inserted : text := py ", FullscreenLayout} from '@zen/tui';".

(** Whether a character occurs in a text. *)
Definition occurs (c : char) (s : text) : bool := existsb (N.eqb c) s.

(** The characters that are neither blanks nor commas nor quotes. *)
Definition plain (c : char) : bool :=
  negb (is_space c || N.eqb c 44 || is_quote c).

(** The confirmation lines of a trace: the printed lines that begin with
    the check mark. *)
Definition confirmations (tr : list event) : list (list N) :=
  flat_map (fun e => match e with
                     | Print (c :: l) => if N.eqb c 10003 then [l] else []
                     | _ => []
                     end) tr.

(** * Properties *)

(** ** The matcher is sound for the language of the pattern *)

Create HintDb re.
#[local] Hint Constructors matches : re.

Lemma star_sound (R : Type) (p : char -> bool) :
  forall s (k : text -> text -> option R) x,
    star p s k = Some x ->
    exists w t, s = w ++ t /\ forallb p w = true /\ k w t = Some x.
Proof.
  induction s as [|c s IH]; intros k x H; simpl in H.
  - exists [], []. auto.
  - destruct (p c) eqn:Hc.
    + destruct (star p s (fun w t => k (c :: w) t)) as [y|] eqn:Hs.
      * inversion H; subst y. apply IH in Hs.
        destruct Hs as (w & t & -> & Hw & Hk).
        exists (c :: w), t. simpl. rewrite Hc, Hw. auto.
      * exists [], (c :: s). auto.
    + exists [], (c :: s). auto.
Qed.

Lemma run_sound (R : Type) :
  forall r s g (k : text -> list text -> text -> option R) x,
    run r s g k = Some x ->
    exists w gs t,
      s = w ++ t /\ matches r w gs /\ k w (g ++ gs) t = Some x.
Proof.
  induction r as [|c|p|r1 IH1 r2 IH2|r1 IH1 r2 IH2|p|p|r1 IH1];
    intros s g k x H; simpl in H.
  - exists [], [], s. rewrite app_nil_r. auto with re.
  - destruct s as [|d s]; [discriminate|].
    destruct (N.eqb c d) eqn:E; [|discriminate].
    apply N.eqb_eq in E; subst d.
    exists [c], [], s. rewrite app_nil_r. auto with re.
  - destruct s as [|d s]; [discriminate|].
    destruct (p d) eqn:E; [|discriminate].
    exists [d], [], s. rewrite app_nil_r. auto with re.
  - apply IH1 in H. destruct H as (w1 & g1 & t1 & -> & M1 & H).
    apply IH2 in H. destruct H as (w2 & g2 & t2 & -> & M2 & H).
    exists (w1 ++ w2), (g1 ++ g2), t2.
    rewrite <- !app_assoc in *. auto with re.
  - destruct (run r1 s g k) as [y|] eqn:E.
    + inversion H; subst y. apply IH1 in E.
      destruct E as (w & gs & t & -> & M & Hk). exists w, gs, t. auto with re.
    + apply IH2 in H.
      destruct H as (w & gs & t & -> & M & Hk). exists w, gs, t. auto with re.
  - apply star_sound in H. destruct H as (w & t & -> & Hw & Hk).
    exists w, [], t. rewrite app_nil_r. auto with re.
  - destruct s as [|d s]; [discriminate|].
    destruct (p d) eqn:E; [|discriminate].
    apply star_sound in H. destruct H as (w & t & -> & Hw & Hk).
    exists (d :: w), [], t. rewrite app_nil_r. repeat split; auto.
    constructor; [discriminate|]. simpl. now rewrite E, Hw.
  - apply IH1 in H. destruct H as (w & gs & t & -> & M & Hk).
    exists w, (gs ++ [w]), t. rewrite app_assoc. auto with re.
Qed.

Lemma match_at_sound r s m t :
  match_at r s = Some (m, t) ->
  s = m_whole m ++ t /\ matches r (m_whole m) (m_groups m).
Proof.
  unfold match_at. intros H. apply run_sound in H.
  destruct H as (w & gs & t' & -> & M & Hk).
  inversion Hk; subst. simpl. auto.
Qed.

(** ** The scan *)

Lemma scan_fuel_irrelevant r :
  forall fuel1 fuel2 s,
    List.length s <= fuel1 -> List.length s <= fuel2 ->
    scan_fuel fuel1 r s = scan_fuel fuel2 r s.
Proof.
  induction fuel1 as [|fuel1 IH]; intros fuel2 s H1 H2.
  - destruct s; [|simpl in H1; lia]. destruct fuel2; reflexivity.
  - destruct s as [|c s]; [destruct fuel2; reflexivity|].
    destruct fuel2 as [|fuel2]; [simpl in H2; lia|].
    simpl in H1, H2. cbn [scan_fuel].
    destruct (match_at r (c :: s)) as [[m t]|] eqn:E.
    + destruct (m_whole m) as [|a w] eqn:Ew.
      * f_equal. apply IH; lia.
      * apply match_at_sound in E. destruct E as [E _].
        rewrite Ew in E. apply (f_equal (@List.length _)) in E.
        simpl in E. rewrite length_app in E.
        f_equal. apply IH; lia.
    + f_equal. apply IH; lia.
Qed.

Lemma scan_fuel_enough r fuel s :
  List.length s <= fuel -> scan_fuel fuel r s = scan r s.
Proof. intros H. apply scan_fuel_irrelevant; lia. Qed.

(** The equations of the scan, free of fuel. *)
Lemma scan_nil r : scan r [] = [].
Proof. reflexivity. Qed.

Lemma scan_cons r c s :
  scan r (c :: s) =
  match match_at r (c :: s) with
  | Some (m, t) =>
      match m_whole m with
      | [] => Copy c :: scan r s
      | _ :: _ => Hit m :: scan r t
      end
  | None => Copy c :: scan r s
  end.
Proof.
  unfold scan at 1. cbn [List.length scan_fuel].
  destruct (match_at r (c :: s)) as [[m t]|] eqn:E.
  - destruct (m_whole m) as [|a w] eqn:Ew.
    + reflexivity.
    + apply match_at_sound in E. destruct E as [E _].
      rewrite Ew in E. apply (f_equal (@List.length _)) in E.
      simpl in E. rewrite length_app in E.
      rewrite scan_fuel_enough by lia. reflexivity.
  - reflexivity.
Qed.

(** Induction along the scan: from a text to the text after its first
    piece. *)
Lemma scan_ind (r : regex) (P : text -> Prop) :
  P [] ->
  (forall c s, (forall t, List.length t <= List.length s -> P t) -> P (c :: s)) ->
  forall s, P s.
Proof.
  intros H0 HS s.
  assert (H : forall n t, List.length t <= n -> P t).
  { induction n as [|n IH]; intros t Ht.
    - destruct t; [exact H0 | simpl in Ht; lia].
    - destruct t as [|c t]; [exact H0|]. apply HS.
      intros u Hu. apply IH. simpl in Ht. lia. }
  apply (H (List.length s)). lia.
Qed.

(** The pieces partition the input, in order. *)
Lemma scan_src r : forall s, flat_map piece_src (scan r s) = s.
Proof.
  intros s. induction s as [|c s IH] using (scan_ind r); [reflexivity|].
  rewrite scan_cons.
  destruct (match_at r (c :: s)) as [[m t]|] eqn:E.
  - destruct (m_whole m) as [|a w] eqn:Ew.
    + simpl. now rewrite IH.
    + apply match_at_sound in E. destruct E as [E _].
      simpl. rewrite IH.
      * rewrite E, Ew. reflexivity.
      * rewrite Ew in E. apply (f_equal (@List.length _)) in E.
        simpl in E. rewrite length_app in E. lia.
  - simpl. now rewrite IH.
Qed.

(** ** What the three patterns match *)

Ltac inv_matches :=
  repeat match goal with
  | H : matches Eps _ _ |- _ => inversion H; clear H; subst
  | H : matches (Lit _) _ _ |- _ => inversion H; clear H; subst
  | H : matches (Cls _) _ _ |- _ => inversion H; clear H; subst
  | H : matches (Cat _ _) _ _ |- _ => inversion H; clear H; subst
  | H : matches (Alt _ _) _ _ |- _ => inversion H; clear H; subst
  | H : matches (Star _) _ _ |- _ => inversion H; clear H; subst
  | H : matches (Plus _) _ _ |- _ => inversion H; clear H; subst
  | H : matches (Grp _) _ _ |- _ => inversion H; clear H; subst
  end.

Lemma declaration_intro ws1 body ws2 ws3 q1 q2 w stmt :
  stmt = braced_import ws1 body ->
  w = stmt ++ from_clause ws2 ws3 q1 q2 ->
  blank ws1 -> body <> [] -> forallb not_rbrace body = true ->
  blank ws2 -> blank ws3 -> is_quote q1 = true -> is_quote q2 = true ->
  declaration w stmt.
Proof. intros -> ->. now constructor. Qed.

Lemma import_pattern_shape w g :
  matches import_pattern w g -> exists stmt, g = [stmt] /\ declaration w stmt.
Proof.
  intros H. unfold import_pattern in H. cbn in H. inv_matches.
  eexists. split; [reflexivity|].
  eapply declaration_intro;
    [ reflexivity | reflexivity | unfold blank; auto .. ].
Qed.

Section Patterns.

Variable ua : char -> bool.

(** A match of the separator pattern: a word, blanks, one of the two
    names. *)
Lemma comma_pattern_shape w g :
  matches (comma_pattern ua) w g ->
  exists w1 ws name,
    g = [w1; name] /\ w = w1 ++ ws ++ name /\
    w1 <> [] /\ forallb (is_word ua) w1 = true /\ blank ws /\
    (name = py "renderApp" \/ name = py "FullscreenLayout").
Proof.
  intros H. unfold comma_pattern in H. cbn in H. inv_matches.
  - eexists _, _, _. split; [reflexivity|].
    repeat split; eauto.
  - eexists _, _, _. split; [reflexivity|].
    repeat split; eauto.
Qed.

(** A match of the closing-brace pattern: a word, optional blanks, [}]. *)
Lemma brace_pattern_shape w g :
  matches (brace_pattern ua) w g ->
  exists w1 ws,
    g = [w1] /\ w = w1 ++ ws ++ [125%N] /\
    w1 <> [] /\ forallb (is_word ua) w1 = true /\
    forallb is_space ws = true.
Proof.
  intros H. unfold brace_pattern in H. cbn in H. inv_matches.
  eexists _, _. split; [reflexivity|]. repeat split; eauto.
Qed.

End Patterns.

Lemma declaration_nonempty w stmt : declaration w stmt -> w <> [].
Proof. intros []. discriminate. Qed.

(** None of the three patterns matches the empty string. *)
Lemma patterns_nonempty ua r w g :
  r = import_pattern \/ r = comma_pattern ua \/ r = brace_pattern ua ->
  matches r w g -> w <> [].
Proof.
  intros [-> | [-> | ->]] M.
  - apply import_pattern_shape in M. destruct M as (stmt & _ & D).
    now apply declaration_nonempty in D.
  - apply comma_pattern_shape in M.
    destruct M as (w1 & ws & name & _ & -> & H & _).
    destruct w1; [easy | discriminate].
  - apply brace_pattern_shape in M.
    destruct M as (w1 & ws & _ & -> & H & _).
    destruct w1; [easy | discriminate].
Qed.

(** ** Substitution preserves what the replacement preserves *)

Lemma re_sub_nil r repl : re_sub r repl [] = [].
Proof. reflexivity. Qed.

Lemma re_sub_cons r repl c s :
  re_sub r repl (c :: s) =
  match match_at r (c :: s) with
  | Some (m, t) =>
      match m_whole m with
      | [] => c :: re_sub r repl s
      | _ :: _ => repl m ++ re_sub r repl t
      end
  | None => c :: re_sub r repl s
  end.
Proof.
  unfold re_sub. rewrite scan_cons.
  destruct (match_at r (c :: s)) as [[m t]|]; [|reflexivity].
  destruct (m_whole m); reflexivity.
Qed.

(** A match that is not empty leaves a shorter text to scan. *)
Lemma match_at_shorter r s m t a w :
  match_at r s = Some (m, t) -> m_whole m = a :: w ->
  List.length t < List.length s.
Proof.
  intros E Ew. apply match_at_sound in E. destruct E as [E _].
  rewrite Ew in E. subst s. simpl. rewrite length_app. lia.
Qed.

(** Any relation between texts that is reflexive on single characters and
    compatible with concatenation relates the result of [re.sub] to its
    input as soon as it relates every replacement to the match it replaces. *)
Section Congruence.

Variable E : text -> text -> Prop.
Hypothesis E_nil : E [] [].
Hypothesis E_char : forall c, E [c] [c].
Hypothesis E_app : forall a a' b b', E a a' -> E b b' -> E (a ++ b) (a' ++ b').

Lemma re_sub_congruence r repl :
  (forall w g, matches r w g -> E (repl (MatchObj w g)) w) ->
  forall s, E (re_sub r repl s) s.
Proof.
  intros Hrepl s. induction s as [|c s IH] using (scan_ind r);
    [exact E_nil|].
  rewrite re_sub_cons.
  destruct (match_at r (c :: s)) as [[[mw mg] t]|] eqn:E1.
  - cbn [m_whole]. destruct mw as [|a w].
    + apply (E_app (E_char c)). now apply IH.
    + pose proof (match_at_shorter _ _ E1 eq_refl) as Hlen.
      apply match_at_sound in E1. cbn [m_whole m_groups] in E1.
      destruct E1 as [E1 M]. rewrite E1. apply E_app.
      * now apply Hrepl.
      * apply IH. simpl in Hlen. lia.
  - apply (E_app (E_char c)). now apply IH.
Qed.

End Congruence.

Lemma re_sub_filter (f : char -> bool) r repl :
  (forall w g, matches r w g ->
               filter f (repl (MatchObj w g)) = filter f w) ->
  forall s, filter f (re_sub r repl s) = filter f s.
Proof.
  intros H. apply (@re_sub_congruence (fun a b => filter f a = filter f b));
    auto.
  intros a a' b b' Ha Hb. rewrite !filter_app. congruence.
Qed.

(** ** The names of an import statement *)

Lemma lex_app cur a b :
  lex cur (a ++ b) =
  let (out, cur') := lex cur a in
  let (out', cur'') := lex cur' b in (out ++ out', cur'').
Proof.
  revert cur. induction a as [|c a IH]; intros cur; simpl.
  - destruct (lex cur b). reflexivity.
  - destruct (separator c).
    + rewrite IH. destruct (lex [] a) as [o1 c1].
      destruct (lex c1 b) as [o2 c2]. now rewrite app_assoc.
    + apply IH.
Qed.

Lemma same_lex_app a a' b b' :
  same_lex a a' -> same_lex b b' -> same_lex (a ++ b) (a' ++ b').
Proof.
  intros Ha Hb cur. rewrite !lex_app, Ha.
  destruct (lex cur a') as [o1 c1]. now rewrite Hb.
Qed.

Lemma same_lex_refl a : same_lex a a.
Proof. intros cur. reflexivity. Qed.

(** A run of separators only ends the name being read. *)
Lemma lex_separators cur ws :
  ws <> [] -> forallb separator ws = true -> lex cur ws = (flush cur, []).
Proof.
  revert cur. induction ws as [|c ws IH]; intros cur Hne Hall; [easy|].
  simpl in *. apply andb_true_iff in Hall. destruct Hall as [Hc Hall].
  rewrite Hc. destruct ws as [|d ws].
  - simpl. now rewrite app_nil_r.
  - rewrite IH; [|discriminate|assumption]. simpl. now rewrite app_nil_r.
Qed.

Lemma same_lex_separators ws ws' :
  ws <> [] -> forallb separator ws = true ->
  ws' <> [] -> forallb separator ws' = true -> same_lex ws ws'.
Proof. intros H1 H2 H3 H4 cur. now rewrite !lex_separators. Qed.

Lemma same_lex_names a b : same_lex a b -> names a = names b.
Proof. intros H. unfold names. now rewrite H. Qed.

Lemma forallb_impl (p q : char -> bool) l :
  (forall c, p c = true -> q c = true) ->
  forallb p l = true -> forallb q l = true.
Proof.
  intros H. rewrite !forallb_forall. auto.
Qed.

Lemma space_separator c : is_space c = true -> separator c = true.
Proof. unfold separator. intros ->. reflexivity. Qed.

Section Repairs.

Variable ua : char -> bool.

(** The separator repair changes separators only: the names of the
    statement stay what they were. *)
Lemma fix_commas_same_lex s : same_lex (fix_commas ua s) s.
Proof.
  unfold fix_commas. apply re_sub_congruence.
  - apply same_lex_refl.
  - intros c. apply same_lex_refl.
  - apply same_lex_app.
  - intros w g M. apply comma_pattern_shape in M.
    destruct M as (w1 & ws & name & -> & -> & _ & _ & [Hne Hws] & _).
    unfold expand, comma_template, group. cbn [flat_map nth Nat.pred m_groups].
    rewrite app_nil_r.
    apply same_lex_app; [apply same_lex_refl|].
    apply same_lex_app; [|apply same_lex_refl].
    apply same_lex_separators; try easy.
    apply forallb_impl with (p := is_space);
      [apply space_separator | exact Hws].
Qed.

Lemma fix_commas_names s : names (fix_commas ua s) = names s.
Proof. apply same_lex_names, fix_commas_same_lex. Qed.

End Repairs.

(** ** Where greedy repetition stops, the matcher is deterministic *)

Section Greedy.

Variable R : Type.

Lemma star_greedy (p : char -> bool) :
  forall w t (k : text -> text -> option R) x,
    forallb p w = true -> stops p t -> k w t = Some x ->
    star p (w ++ t) k = Some x.
Proof.
  induction w as [|a w IH]; intros t k x Hw Ht Hk; simpl.
  - destruct t as [|c t]; [exact Hk|]. simpl in *. now rewrite Ht.
  - simpl in Hw. apply andb_true_iff in Hw. destruct Hw as [Ha Hw].
    rewrite Ha. now rewrite (IH t (fun w0 t0 => k (a :: w0) t0) x).
Qed.

Lemma run_Plus_greedy (p : char -> bool) w t g
      (k : text -> list text -> text -> option R) x :
  w <> [] -> forallb p w = true -> stops p t -> k w g t = Some x ->
  run (Plus p) (w ++ t) g k = Some x.
Proof.
  intros Hne Hw Ht Hk. destruct w as [|a w]; [easy|].
  simpl in *. apply andb_true_iff in Hw. destruct Hw as [Ha Hw].
  rewrite Ha. now apply star_greedy.
Qed.

End Greedy.

Lemma run_follows (R : Type) r w gs t :
  follows r w gs t ->
  forall g (k : text -> list text -> text -> option R) x,
    k w (g ++ gs) t = Some x -> run r (w ++ t) g k = Some x.
Proof.
  induction 1 as [t|c t|p c t Hc|r1 r2 w1 w2 g1 g2 t _ IH1 _ IH2
                  |r1 r2 w g t _ IH|p w t Hw Ht|p w t Hne Hw Ht
                  |r w g t _ IH]; intros g0 k x Hk.
  - simpl. now rewrite app_nil_r in Hk.
  - simpl. rewrite N.eqb_refl. now rewrite app_nil_r in Hk.
  - simpl. rewrite Hc. now rewrite app_nil_r in Hk.
  - cbn [run]. rewrite <- app_assoc. apply IH1. apply IH2.
    now rewrite <- app_assoc.
  - cbn [run]. now rewrite (IH g0 k x Hk).
  - cbn [run]. apply star_greedy; auto. now rewrite app_nil_r in Hk.
  - apply run_Plus_greedy; auto. now rewrite app_nil_r in Hk.
  - cbn [run]. apply IH. now rewrite <- app_assoc.
Qed.

Lemma match_at_follows r w gs t :
  follows r w gs t -> match_at r (w ++ t) = Some (MatchObj w gs, t).
Proof.
  intros H. unfold match_at. now apply (run_follows H).
Qed.

Lemma follows_lit l t : follows (lit l) l [] t.
Proof.
  induction l as [|c l IH]; [constructor|].
  destruct l as [|d l]; [constructor|].
  change (lit (c :: d :: l)) with (Cat (Lit c) (lit (d :: l))).
  apply (@F_Cat (Lit c) (lit (d :: l)) [c] (d :: l) [] [] t);
    [constructor | exact IH].
Qed.

Lemma quote_not_space q : is_quote q = true -> is_space q = false.
Proof.
  unfold is_quote. rewrite orb_true_iff, !N.eqb_eq.
  intros [-> | ->]; reflexivity.
Qed.

(** Wherever a declaration starts, the import pattern matches exactly it. *)
Lemma follows_declaration w stmt t :
  declaration w stmt -> follows import_pattern w [stmt] t.
Proof.
  intros [ws1 body ws2 ws3 q1 q2 [N1 S1] Nb Sb [N2 S2] [N3 S3] Q1 Q2].
  unfold import_pattern. cbn [seq].
  apply (@F_Cat _ _ (braced_import ws1 body) (from_clause ws2 ws3 q1 q2)
                [braced_import ws1 body] []).
  - apply (@F_Grp _ (braced_import ws1 body) []).
    apply (@F_Cat _ _ (py "import") (ws1 ++ 123%N :: body ++ [125%N]) [] []);
      [apply follows_lit|].
    apply (@F_Cat _ _ ws1 (123%N :: body ++ [125%N]) [] []);
      [now apply F_Plus|].
    apply (@F_Cat _ _ [123%N] (body ++ [125%N]) [] []); [constructor|].
    apply (@F_Cat _ _ body [125%N] [] []); [now apply F_Plus|constructor].
  - apply (@F_Cat _ _ ws2 (py "from" ++ ws3 ++ q1 :: py "@zen/tui" ++ [q2; 59%N])
                  [] []); [now apply F_Plus|].
    apply (@F_Cat _ _ (py "from") (ws3 ++ q1 :: py "@zen/tui" ++ [q2; 59%N])
                  [] []); [apply follows_lit|].
    apply (@F_Cat _ _ ws3 (q1 :: py "@zen/tui" ++ [q2; 59%N]) [] []).
    { apply F_Plus; auto. simpl. now apply quote_not_space. }
    apply (@F_Cat _ _ [q1] (py "@zen/tui" ++ [q2; 59%N]) [] []);
      [now constructor|].
    apply (@F_Cat _ _ (py "@zen/tui") [q2; 59%N] [] []); [apply follows_lit|].
    apply (@F_Cat _ _ [q2] [59%N] [] []); now constructor.
Qed.

Lemma match_at_declaration w stmt t :
  declaration w stmt ->
  match_at import_pattern (w ++ t) = Some (MatchObj w [stmt], t).
Proof. intros H. apply match_at_follows. now apply follows_declaration. Qed.

(** Conversely a match of the import pattern is a declaration. *)
Lemma match_at_import_inv s m t :
  match_at import_pattern s = Some (m, t) ->
  exists w stmt, m = MatchObj w [stmt] /\ s = w ++ t /\ declaration w stmt.
Proof.
  intros H. apply match_at_sound in H. destruct H as [E M].
  destruct m as [w g]. simpl in *.
  apply import_pattern_shape in M. destruct M as (stmt & -> & D).
  now exists w, stmt.
Qed.

(** ** A declaration is matched where it stands *)

Lemma open_brace_app b a c :
  open_brace b (a ++ c) = open_brace (open_brace b a) c.
Proof.
  revert b. induction a as [|x a IH]; intros b; simpl; [reflexivity|].
  destruct (N.eqb x 123); [apply IH|]. destruct (N.eqb x 125); apply IH.
Qed.

Lemma open_brace_weaken b s : open_brace b s = false -> closed s.
Proof.
  unfold closed. revert b. induction s as [|x s IH]; intros b; simpl.
  - reflexivity.
  - destruct (N.eqb x 123); [easy|]. destruct (N.eqb x 125); [easy|]. apply IH.
Qed.

Lemma open_brace_unclosed s :
  forallb not_rbrace s = true -> open_brace true s = true.
Proof.
  induction s as [|x s IH]; simpl; [reflexivity|].
  unfold not_rbrace at 1. intros H. apply andb_true_iff in H.
  destruct H as [Hx Hs]. destruct (N.eqb x 123); [now apply IH|].
  destruct (N.eqb x 125); [discriminate|now apply IH].
Qed.

Lemma i_before_quote_spec s :
  i_before_quote s = true ->
  forall a b, s = a ++ 105%N :: b ->
  exists q b', b = q :: b' /\ is_quote q = true.
Proof.
  intros H a. revert s H. induction a as [|x a IH]; intros s H b ->.
  - simpl in H. destruct b as [|q b]; [discriminate|].
    apply andb_true_iff in H. destruct H as [H _]. now exists q, b.
  - simpl in H. apply andb_true_iff in H. destruct H as [_ H].
    now apply (IH _ H).
Qed.

Lemma space_not_i c : is_space c = true -> N.eqb c 105 = false.
Proof.
  intros H. destruct (N.eqb c 105) eqn:E; [|reflexivity].
  apply N.eqb_eq in E. subst c. discriminate.
Qed.

Lemma i_before_quote_blank ws s :
  forallb is_space ws = true ->
  i_before_quote (ws ++ s) = i_before_quote s.
Proof.
  induction ws as [|c ws IH]; intros H; simpl in *; [reflexivity|].
  apply andb_true_iff in H. destruct H as [Hc H].
  now rewrite (space_not_i _ Hc), IH.
Qed.

Lemma i_before_quote_clause ws2 ws3 q1 q2 :
  forallb is_space ws2 = true -> forallb is_space ws3 = true ->
  is_quote q1 = true -> is_quote q2 = true ->
  i_before_quote (from_clause ws2 ws3 q1 q2) = true.
Proof.
  intros S2 S3 Q1 Q2. unfold from_clause.
  rewrite i_before_quote_blank by assumption.
  change (py "from" ++ ws3 ++ q1 :: py "@zen/tui" ++ [q2; 59%N])
    with (102%N :: 114%N :: 111%N :: 109%N
            :: ws3 ++ q1 :: py "@zen/tui" ++ [q2; 59%N]).
  cbn [i_before_quote N.eqb Pos.eqb andb].
  rewrite i_before_quote_blank by assumption.
  unfold is_quote in Q1, Q2. rewrite orb_true_iff, !N.eqb_eq in Q1, Q2.
  destruct Q1 as [-> | ->], Q2 as [-> | ->]; reflexivity.
Qed.

(** A declaration that begins inside a closed text ends inside it, when the
    text is followed by a word beginning with [im]. *)
Lemma declaration_within c pre (rest' : text) w stmt t :
  closed (c :: pre) -> declaration w stmt ->
  (c :: pre) ++ 105%N :: 109%N :: rest' = w ++ t ->
  exists u, c :: pre = w ++ u /\ t = u ++ 105%N :: 109%N :: rest' /\ closed u.
Proof.
  intros Hcl D E.
  apply app_eq_app in E. destruct E as (l & [[E1 E2] | [E1 E2]]).
  { exists l. repeat split; auto. unfold closed in Hcl.
    rewrite E1, open_brace_app in Hcl. now apply open_brace_weaken in Hcl. }
  destruct l as [|i l].
  { exists []. rewrite app_nil_r in *. simpl in E2. subst. now split. }
  exfalso. simpl in E2. injection E2 as <- E2.
  destruct D as [ws1 body ws2 ws3 q1 q2 [N1 S1] Nb Sb [N2 S2] [N3 S3] Q1 Q2].
  assert (Hw : braced_import ws1 body ++ from_clause ws2 ws3 q1 q2 =
               105%N :: (py "mport" ++ ws1 ++ [123%N])
                     ++ body ++ 125%N :: from_clause ws2 ws3 q1 q2).
  { unfold braced_import.
    repeat (progress (simpl; rewrite <- ?app_assoc)). reflexivity. }
  rewrite Hw in E1. clear Hw. injection E1 as <- E1.
  unfold closed in Hcl. simpl in Hcl.
  pose proof (@app_eq_app _ (py "mport" ++ ws1 ++ [123%N])
                (body ++ 125%N :: from_clause ws2 ws3 q1 q2)
                pre (105%N :: l) E1) as (l2 & [[E3 E4] | [E3 E4]]).
  - (* the text ends before the opening brace is over *)
    destruct l2 as [|x l2].
    + rewrite app_nil_r in E3.
      rewrite <- E3, app_assoc, open_brace_app in Hcl. discriminate.
    + simpl in E4. injection E4 as <- E4.
      assert (Hin : In 105%N (py "mport" ++ ws1 ++ [123%N])).
      { rewrite E3. apply in_or_app. right. now left. }
      apply in_app_or in Hin. destruct Hin as [Hin | Hin].
      { simpl in Hin. intuition discriminate. }
      apply in_app_or in Hin. destruct Hin as [Hin | Hin].
      { rewrite forallb_forall in S1. apply S1 in Hin. discriminate. }
      simpl in Hin. intuition discriminate.
  - (* the text goes on after the opening brace *)
    apply app_eq_app in E4. destruct E4 as (l3 & [[E4 E5] | [E4 E5]]).
    + (* ... and ends inside the braces *)
      rewrite E3, app_assoc, !open_brace_app in Hcl.
      rewrite E4, forallb_app in Sb. apply andb_true_iff in Sb.
      destruct Sb as [Sb _]. simpl in Hcl.
      rewrite (open_brace_unclosed _ Sb) in Hcl. discriminate.
    + (* ... and ends after the closing brace *)
      destruct l3 as [|x l3]; [discriminate|].
      simpl in E5. injection E5 as <- E5.
      pose proof (i_before_quote_clause ws2 ws3 q1 q2 S2 S3 Q1 Q2) as Hi.
      destruct (@i_before_quote_spec _ Hi _ _ E5) as (q & b' & -> & Hq).
      simpl in E2. injection E2 as <- _. discriminate.
Qed.

Lemma declaration_starts w stmt :
  declaration w stmt -> exists w' : text, w = 105%N :: 109%N :: w'.
Proof. intros []. eexists. reflexivity. Qed.

(** The scan of a closed text does not depend on a declaration that
    follows it. *)
Lemma scan_closed_prefix (rest' : text) :
  forall pre, closed pre ->
    scan import_pattern (pre ++ 105%N :: 109%N :: rest') =
    scan import_pattern pre ++ scan import_pattern (105%N :: 109%N :: rest').
Proof.
  remember (105%N :: 109%N :: rest') as rest eqn:Hrest.
  intros pre. induction pre as [|c pre IH] using (scan_ind import_pattern);
    intros Hcl; [reflexivity|].
  change ((c :: pre) ++ rest) with (c :: pre ++ rest).
  rewrite !scan_cons.
  change (c :: pre ++ rest) with ((c :: pre) ++ rest).
  destruct (match_at import_pattern ((c :: pre) ++ rest))
    as [[m t]|] eqn:E.
  - apply match_at_import_inv in E. destruct E as (w & stmt & -> & E & D).
    rewrite Hrest in E.
    destruct (declaration_within _ Hcl D E) as (u & E1 & -> & Hu).
    rewrite <- Hrest in *.
    rewrite E1, (match_at_declaration u D). cbn [m_whole].
    destruct w as [|a w]; [now apply declaration_nonempty in D|].
    cbn [app]. f_equal. apply IH; [|exact Hu].
    apply (f_equal (@List.length _)) in E1. simpl in E1.
    rewrite length_app in E1. lia.
  - destruct (match_at import_pattern (c :: pre)) as [[m t]|] eqn:E'.
    + apply match_at_import_inv in E'. destruct E' as (w & stmt & -> & E' & D).
      rewrite E', <- app_assoc, (match_at_declaration _ D) in E. discriminate.
    + cbn [app]. f_equal. apply IH; [lia|].
      unfold closed in *. simpl in Hcl.
      destruct (N.eqb c 123); [now apply open_brace_weaken in Hcl|].
      destruct (N.eqb c 125); assumption.
Qed.

(** Hence a declaration that follows a closed text is replaced on its own. *)
Lemma re_sub_declaration repl pre w stmt post :
  closed pre -> declaration w stmt ->
  re_sub import_pattern repl (pre ++ w ++ post) =
  re_sub import_pattern repl pre ++ repl (MatchObj w [stmt])
    ++ re_sub import_pattern repl post.
Proof.
  intros Hcl D. unfold re_sub.
  destruct (declaration_starts D) as (w' & Ew).
  pose proof (match_at_declaration post D) as M.
  pose proof (declaration_nonempty D) as Hne.
  rewrite Ew in *. cbn [app] in *.
  rewrite scan_closed_prefix by assumption.
  rewrite flat_map_app. f_equal.
  rewrite scan_cons, M. reflexivity.
Qed.

(** Two runs of a class, each followed by a character outside it, that
    begin the same text are the same run. *)
Lemma span_unique (p : char -> bool) :
  forall a a' x x' r r',
    forallb p a = true -> forallb p a' = true ->
    p x = false -> p x' = false ->
    a ++ x :: r = a' ++ x' :: r' -> a = a' /\ x = x' /\ r = r'.
Proof.
  induction a as [|c a IH]; intros [|c' a'] x x' r r' Ha Ha' Hx Hx' E;
    simpl in *.
  - injection E as -> ->. auto.
  - injection E as -> _. apply andb_true_iff in Ha'. destruct Ha' as [H _].
    congruence.
  - injection E as <- _. apply andb_true_iff in Ha. destruct Ha as [H _].
    congruence.
  - injection E as <- E. apply andb_true_iff in Ha, Ha'.
    destruct Ha as [_ Ha], Ha' as [_ Ha'].
    destruct (IH a' x x' r r' Ha Ha' Hx Hx' E) as (-> & -> & ->). auto.
Qed.

(** ** A declaration anywhere in the text *)

Lemma blank_not_rbrace ws :
  forallb is_space ws = true -> forallb not_rbrace ws = true.
Proof.
  intros H. apply forallb_impl with (p := is_space); [|exact H].
  intros c Hc. unfold not_rbrace. destruct (N.eqb c 125) eqn:E; [|reflexivity].
  apply N.eqb_eq in E. subst c. discriminate.
Qed.

(** Two module clauses that begin the same text are the same clause. *)
Lemma from_clause_unique ws2 ws3 q1 q2 t ws2' ws3' q1' q2' t' :
  forallb is_space ws2 = true -> forallb is_space ws3 = true ->
  is_quote q1 = true ->
  forallb is_space ws2' = true -> forallb is_space ws3' = true ->
  is_quote q1' = true ->
  from_clause ws2 ws3 q1 q2 ++ t = from_clause ws2' ws3' q1' q2' ++ t' ->
  from_clause ws2 ws3 q1 q2 = from_clause ws2' ws3' q1' q2' /\ t = t'.
Proof.
  intros S2 S3 Q1 S2' S3' Q1' E. unfold from_clause in *.
  repeat (progress (simpl in E; rewrite <- ?app_assoc in E)).
  apply (span_unique is_space) in E; auto. destruct E as (-> & _ & E).
  injection E as E.
  apply (span_unique is_space) in E; auto using quote_not_space.
  destruct E as (-> & -> & E). injection E as -> ->. auto.
Qed.

(** A match that begins before a declaration ends before it, or ends with
    it. *)
Lemma declaration_reached c pre d stmt_d post w stmt t :
  declaration d stmt_d -> declaration w stmt ->
  (c :: pre) ++ d ++ post = w ++ t ->
  (exists u, c :: pre = w ++ u /\ t = u ++ d ++ post)
  \/ (w = (c :: pre) ++ d /\ stmt = (c :: pre) ++ stmt_d /\ t = post).
Proof.
  intros Dd D E.
  apply app_eq_app in E. destruct E as (l & [[E1 E2] | [E1 E2]]).
  { left. now exists l. }
  destruct l as [|i l].
  { left. exists []. rewrite app_nil_r in *. now split. }
  right.
  destruct Dd as [ws1d bodyd ws2d ws3d q1d q2d
                    [N1d S1d] Nbd Sbd [N2d S2d] [N3d S3d] Q1d Q2d].
  destruct D as [ws1 body ws2 ws3 q1 q2 [N1 S1] Nb Sb [N2 S2] [N3 S3] Q1 Q2].
  pose proof (i_before_quote_clause ws2 ws3 q1 q2 S2 S3 Q1 Q2) as Hcl.
  pose (A := py "import" ++ ws1 ++ [123%N]).
  pose (P' := py "port" ++ ws1d ++ 123%N :: bodyd).
  assert (Hw : braced_import ws1 body ++ from_clause ws2 ws3 q1 q2
               = A ++ body ++ 125%N :: from_clause ws2 ws3 q1 q2).
  { unfold braced_import, A.
    repeat (progress (simpl; rewrite <- ?app_assoc)). reflexivity. }
  assert (Hs : braced_import ws1 body = A ++ body ++ [125%N]).
  { unfold braced_import, A.
    repeat (progress (simpl; rewrite <- ?app_assoc)). reflexivity. }
  assert (Hd : braced_import ws1d bodyd ++ from_clause ws2d ws3d q1d q2d
               = (105%N :: 109%N :: P')
                   ++ 125%N :: from_clause ws2d ws3d q1d q2d).
  { unfold braced_import, P'.
    repeat (progress (simpl; rewrite <- ?app_assoc)). reflexivity. }
  assert (Hsd : braced_import ws1d bodyd = (105%N :: 109%N :: P') ++ [125%N]).
  { unfold braced_import, P'.
    repeat (progress (simpl; rewrite <- ?app_assoc)). reflexivity. }
  assert (HP : forallb not_rbrace (105%N :: 109%N :: P') = true).
  { unfold P'. cbn [forallb py map list_ascii_of_string app].
    rewrite forallb_app. cbn [forallb].
    rewrite (blank_not_rbrace _ S1d), Sbd. reflexivity. }
  assert (HA : ~ In 105%N (tl A)).
  { unfold A. simpl. intros H.
    repeat (destruct H as [H | H]; [discriminate|]).
    apply in_app_or in H. destruct H as [H | H].
    - rewrite forallb_forall in S1. apply S1 in H. discriminate.
    - simpl in H. intuition discriminate. }
  rewrite Hw in E1. rewrite Hd in E2. rewrite Hw, Hs, Hd, Hsd.
  clear Hw Hs Hd Hsd. clearbody A P'.
  assert (Hi : i = 105%N /\ exists r, l ++ t = 109%N :: r).
  { cbn [app] in E2. injection E2 as <- E2. split; [reflexivity|].
    eexists. symmetry. exact E2. }
  destruct Hi as [-> (r & Hr)].
  assert (finish : forall l2 l3,
    c :: pre = A ++ l2 -> body = l2 ++ l3 ->
    105%N :: l = l3 ++ 125%N :: from_clause ws2 ws3 q1 q2 ->
    A ++ body ++ 125%N :: from_clause ws2 ws3 q1 q2
      = (c :: pre) ++ (105%N :: 109%N :: P')
          ++ 125%N :: from_clause ws2d ws3d q1d q2d
    /\ A ++ body ++ [125%N] = (c :: pre) ++ (105%N :: 109%N :: P') ++ [125%N]
    /\ t = post).
  { intros l2 l3 E3 E5 E6. rewrite E6 in E2.
    rewrite <- !app_assoc in E2.
    change ((125%N :: from_clause ws2d ws3d q1d q2d) ++ post)
      with (125%N :: from_clause ws2d ws3d q1d q2d ++ post) in E2.
    change ((125%N :: from_clause ws2 ws3 q1 q2) ++ t)
      with (125%N :: from_clause ws2 ws3 q1 q2 ++ t) in E2.
    rewrite E5, forallb_app in Sb. apply andb_true_iff in Sb.
    destruct Sb as [_ Sb].
    apply (span_unique not_rbrace) in E2; auto.
    destruct E2 as (EP & _ & Ecl).
    apply from_clause_unique in Ecl; auto. destruct Ecl as [Ecl ->].
    rewrite E3, E5, EP, Ecl, <- !app_assoc. auto. }
  pose proof (@app_eq_app _ A (body ++ 125%N :: from_clause ws2 ws3 q1 q2)
                (c :: pre) (105%N :: l) E1) as (l2 & [[E3 E4] | [E3 E4]]).
  - (* the text ends before the opening brace is over *)
    destruct l2 as [|x l2].
    + rewrite app_nil_r in E3.
      apply (finish [] body);
        [now rewrite app_nil_r | reflexivity | exact E4].
    + exfalso. cbn [app] in E4. injection E4 as <- E4.
      apply HA. rewrite E3. cbn [app tl]. apply in_or_app. right. now left.
  - (* the text goes on after the opening brace *)
    apply app_eq_app in E4. destruct E4 as (l3 & [[E5 E6] | [E5 E6]]).
    + (* ... and ends inside the braces *)
      now apply (finish l2 l3).
    + (* ... and ends after the closing brace *)
      exfalso. destruct l3 as [|x l3]; [discriminate|].
      cbn [app] in E6. injection E6 as <- E6.
      destruct (@i_before_quote_spec _ Hcl _ _ E6) as (q & b' & -> & Hq).
      cbn [app] in Hr. injection Hr as -> _. discriminate.
Qed.

Lemma scan_declaration w stmt t :
  declaration w stmt ->
  scan import_pattern (w ++ t) = Hit (MatchObj w [stmt]) :: scan import_pattern t.
Proof.
  intros D. pose proof (match_at_declaration t D) as M.
  destruct w as [|a w]; [now apply declaration_nonempty in D|].
  cbn [app] in *. now rewrite scan_cons, M.
Qed.

(** The scan reaches the end of every declaration of the text: the
    declaration is matched on its own, or it ends a match that began in an
    opening brace before it. *)
Lemma scan_to_declaration d stmt_d post :
  declaration d stmt_d ->
  forall pre, exists pre' x,
    pre = pre' ++ x
    /\ declaration (x ++ d) (x ++ stmt_d)
    /\ scan import_pattern (pre ++ d ++ post)
       = scan import_pattern pre'
           ++ Hit (MatchObj (x ++ d) [x ++ stmt_d])
           :: scan import_pattern post.
Proof.
  intros D pre.
  induction pre as [|c pre IH] using (scan_ind import_pattern).
  - exists [], []. repeat split; [exact D|]. apply (scan_declaration post D).
  - destruct (match_at import_pattern ((c :: pre) ++ d ++ post))
      as [[m t]|] eqn:E.
    + pose proof E as E0. apply match_at_import_inv in E.
      destruct E as (w & stmt & -> & E & Dw).
      destruct (@declaration_reached _ _ _ _ _ _ _ _ D Dw E)
        as [(u & E1 & ->) | (-> & -> & ->)].
      * destruct (IH u) as (u' & x & -> & Dx & Hs).
        { apply (f_equal (@List.length _)) in E1. simpl in E1.
          rewrite length_app in E1.
          pose proof (declaration_nonempty Dw). destruct w; [easy|].
          simpl in E1. lia. }
        exists (w ++ u'), x. split; [now rewrite E1, app_assoc|].
        split; [exact Dx|].
        rewrite E1, <- app_assoc, !(scan_declaration _ Dw), Hs. reflexivity.
      * exists [], (c :: pre). repeat split; [exact Dw|].
        rewrite app_assoc. apply (scan_declaration post Dw).
    + destruct (IH pre (le_n _)) as (p' & x & -> & Dx & Hs).
      exists (c :: p'), x. split; [reflexivity|]. split; [exact Dx|].
      assert (N : match_at import_pattern (c :: p') = None).
      { destruct (match_at import_pattern (c :: p')) as [[m t]|] eqn:E';
          [|reflexivity].
        apply match_at_import_inv in E'.
        destruct E' as (w & stmt & _ & E' & Dw).
        change (c :: p' ++ x) with ((c :: p') ++ x) in E.
        rewrite E', <- !app_assoc, (match_at_declaration _ Dw) in E.
        discriminate. }
      change ((c :: p' ++ x) ++ d ++ post)
        with (c :: (p' ++ x) ++ d ++ post) in *.
      rewrite !scan_cons, E, N, Hs. reflexivity.
Qed.

Lemma re_sub_to_declaration repl d stmt_d post :
  declaration d stmt_d ->
  forall pre, exists pre' x,
    pre = pre' ++ x
    /\ declaration (x ++ d) (x ++ stmt_d)
    /\ re_sub import_pattern repl (pre ++ d ++ post)
       = re_sub import_pattern repl pre'
           ++ repl (MatchObj (x ++ d) [x ++ stmt_d])
           ++ re_sub import_pattern repl post.
Proof.
  intros D pre.
  destruct (scan_to_declaration post D pre) as (pre' & x & E & Dx & Hs).
  exists pre', x. repeat split; auto.
  unfold re_sub. rewrite Hs, flat_map_app. reflexivity.
Qed.

(** ** Strings *)

Lemma text_eqb_eq a b : text_eqb a b = true <-> a = b.
Proof.
  revert b. induction a as [|x a IH]; intros [|y b]; simpl; try easy.
  rewrite andb_true_iff, N.eqb_eq, IH. split.
  - now intros [-> ->].
  - intros H. injection H as -> ->. now split.
Qed.

Lemma text_eqb_neq a b : text_eqb a b = false <-> a <> b.
Proof.
  rewrite <- text_eqb_eq. destruct (text_eqb a b); easy.
Qed.

Lemma starts_with_app n t : starts_with n (n ++ t) = true.
Proof.
  induction n as [|x n IH]; [reflexivity|]. simpl.
  now rewrite N.eqb_refl, IH.
Qed.

Lemma contains_unfold n h :
  contains n h =
  starts_with n h || match h with [] => false | _ :: h' => contains n h' end.
Proof. destruct h; reflexivity. Qed.

Lemma contains_app n a b : contains n (a ++ n ++ b) = true.
Proof.
  induction a as [|x a IH]; simpl.
  - now rewrite contains_unfold, starts_with_app.
  - rewrite IH. apply orb_true_r.
Qed.

(** ** The callback *)

Section Callback.

Variable ua : char -> bool.

(** The callback looks at the file only through the usage marker. *)
Lemma fix_import_line_marked content m :
  contains (py "<FullscreenLayout>") content = true ->
  contains (py "FullscreenLayout") (group m 1) = false ->
  fix_import_line ua content m =
  add_fullscreen ua (fix_commas ua (group m 1)) ++ py " from '@zen/tui';".
Proof. intros H1 H2. unfold fix_import_line. now rewrite H1, H2. Qed.

Lemma fix_import_line_imported content m :
  contains (py "FullscreenLayout") (group m 1) = true ->
  fix_import_line ua content m =
  fix_commas ua (group m 1) ++ py " from '@zen/tui';".
Proof.
  intros H. unfold fix_import_line. rewrite H.
  now rewrite andb_false_r.
Qed.

End Callback.

(** * The properties of the specification *)

(** ** Separator repair *)

(** C5. On [import { foo renderApp } from '@zen/tui';] the fixer returns
    [import { foo, renderApp } from '@zen/tui';]: a comma is inserted between
    the two adjacent names of the braced list. *)
Theorem separator_repair_example (ua : char -> bool) :
  fix_imports ua (py "import { foo renderApp } from '@zen/tui';")
  = py "import { foo, renderApp } from '@zen/tui';".
Proof. vm_compute. reflexivity. Qed.

(** ** Idempotence *)

(** C2. The fixer is not idempotent.  On [chained_input] the first pass
    inserts the comma before [renderApp] only, because the match that
    inserts it has consumed [renderApp]; the second pass inserts the comma
    before [FullscreenLayout], so it changes the output of the first. *)
Theorem fix_imports_second_pass_differs (ua : char -> bool) :
  fix_imports ua chained_input
    = py "import { a, renderApp FullscreenLayout } from '@zen/tui';"
  /\ fix_imports ua (fix_imports ua chained_input)
    = py "import { a, renderApp, FullscreenLayout } from '@zen/tui';"
  /\ fix_imports ua (fix_imports ua chained_input)
     <> fix_imports ua chained_input.
Proof.
  assert (H1 : fix_imports ua chained_input
    = py "import { a, renderApp FullscreenLayout } from '@zen/tui';")
    by (vm_compute; reflexivity).
  rewrite H1. split; [reflexivity|]. split.
  - vm_compute. reflexivity.
  - vm_compute. discriminate.
Qed.

(** ** Missing-symbol repair *)

(** C1, as stated, fails: [marked_file] contains the usage marker and the
    import [bare_import], yet the rewriting [bare_import_spec] occurs nowhere
    in the output, whatever the Unicode table.  In [nested_file] the import
    lies between the braces of a match that already names
    [FullscreenLayout], and the file comes back as it was. *)
Lemma missing_symbol_counterexample :
  contains usage_marker marked_file = true
  /\ contains bare_import marked_file = true
  /\ ~ (exists ua, contains bare_import_spec (fix_imports ua marked_file) = true)
  /\ contains usage_marker nested_file = true
  /\ contains bare_import nested_file = true
  /\ ~ (exists ua, fix_imports ua nested_file <> nested_file).
Proof.
  split; [vm_compute; reflexivity|]. split; [vm_compute; reflexivity|].
  split; [intros [ua H]; vm_compute in H; discriminate|].
  split; [vm_compute; reflexivity|]. split; [vm_compute; reflexivity|].
  intros [ua H]. apply H. vm_compute. reflexivity.
Qed.

Lemma bare_import_declaration :
  declaration bare_import (py "import { renderApp }").
Proof.
  apply (@declaration_intro [32%N] (py " renderApp ") [32%N] [32%N]
           squote squote);
    try reflexivity; try discriminate; split; try reflexivity; discriminate.
Qed.

(** C1, amended.  In a file that contains the usage marker, the import
    [bare_import], standing after a text whose braces are closed, is
    rewritten to exactly [bare_import_fixed]; the text before it and the
    text after it are rewritten on their own. *)
Theorem missing_symbol_repair (ua : char -> bool) (pre post : text) :
  closed pre ->
  contains usage_marker (pre ++ bare_import ++ post) = true ->
  fix_imports ua (pre ++ bare_import ++ post) =
  re_sub import_pattern (fix_import_line ua (pre ++ bare_import ++ post)) pre
    ++ bare_import_fixed
    ++ re_sub import_pattern (fix_import_line ua (pre ++ bare_import ++ post))
         post.
Proof.
  intros Hcl Hm. unfold fix_imports.
  rewrite (re_sub_declaration _ post Hcl bare_import_declaration).
  rewrite fix_import_line_marked;
    [reflexivity | exact Hm | vm_compute; reflexivity].
Qed.

Lemma missing_symbol_repair_witness :
  fix_imports (fun _ => false)
    (py "import React from 'react'; " ++ bare_import
       ++ py " renderApp(<FullscreenLayout><App /></FullscreenLayout>);")
  = py "import React from 'react'; " ++ bare_import_fixed
       ++ py " renderApp(<FullscreenLayout><App /></FullscreenLayout>);".
Proof.
  apply (@missing_symbol_repair (fun _ => false)
           (py "import React from 'react'; ")
           (py " renderApp(<FullscreenLayout><App /></FullscreenLayout>);"));
    vm_compute; reflexivity.
Defined.

(** ** Selectivity *)

Section Selectivity.

Variable ua : char -> bool.
Variable world : Type.
Variable read_text : text -> world -> outcome text.
Variable write_text : text -> text -> world -> world * option text.

(** C3. A file whose text does not contain [renderApp] is left as it is:
    the processor returns [False], the file system is the one it started
    from, and the trace holds the read and nothing else, so no write. *)
Theorem process_file_skips filepath w content :
  read_text filepath w = Returned content ->
  contains (py "renderApp") content = false ->
  process_file ua read_text write_text filepath w
  = Result false w [Read filepath].
Proof.
  intros Hr Hc. unfold process_file. now rewrite Hr, Hc.
Qed.

End Selectivity.

Lemma process_file_skips_witness :
  process_file (fun _ => false) MemFS.read_text MemFS.write_text
    (py "/Users/kyle/zen/examples/Button.tsx")
    [(py "/Users/kyle/zen/examples/Button.tsx",
      py "import { Box Text } from '@zen/tui';")]
  = Result false
      [(py "/Users/kyle/zen/examples/Button.tsx",
        py "import { Box Text } from '@zen/tui';")]
      [Read (py "/Users/kyle/zen/examples/Button.tsx")].
Proof.
  apply (@process_file_skips (fun _ => false) MemFS.t MemFS.read_text
           MemFS.write_text (py "/Users/kyle/zen/examples/Button.tsx")
           [(py "/Users/kyle/zen/examples/Button.tsx",
             py "import { Box Text } from '@zen/tui';")]
           (py "import { Box Text } from '@zen/tui';"));
    vm_compute; reflexivity.
Defined.

(** ** No spurious duplication *)

(** C6. When [FullscreenLayout] already appears in the captured import
    statement, the callback returns the statement with its separators
    repaired and the module clause, without the missing-symbol repair,
    whether or not the file contains the usage marker; and the names of the
    statement are exactly those it had, so no second copy is added. *)
Theorem no_second_copy (ua : char -> bool) (content : text) (m : match_obj) :
  contains (py "FullscreenLayout") (group m 1) = true ->
  fix_import_line ua content m
    = fix_commas ua (group m 1) ++ py " from '@zen/tui';"
  /\ names (fix_commas ua (group m 1)) = names (group m 1).
Proof.
  intros H. split.
  - now apply fix_import_line_imported.
  - apply fix_commas_names.
Qed.

Lemma no_second_copy_witness :
  fix_import_line (fun _ => false)
    (py "import { renderApp FullscreenLayout } from '@zen/tui';<FullscreenLayout>")
    (MatchObj (py "import { renderApp FullscreenLayout } from '@zen/tui';")
              [py "import { renderApp FullscreenLayout }"])
    = fix_commas (fun _ => false) (py "import { renderApp FullscreenLayout }")
        ++ py " from '@zen/tui';"
  /\ names (fix_commas (fun _ => false)
              (py "import { renderApp FullscreenLayout }"))
     = [py "import"; py "renderApp"; py "FullscreenLayout"].
Proof.
  apply (@no_second_copy (fun _ => false)
    (py "import { renderApp FullscreenLayout } from '@zen/tui';<FullscreenLayout>")
    (MatchObj (py "import { renderApp FullscreenLayout } from '@zen/tui';")
              [py "import { renderApp FullscreenLayout }"])).
  vm_compute. reflexivity.
Defined.

(** ** The substring test *)

(** C9. The test that suppresses the missing-symbol repair is a substring
    test on the captured statement: a statement in which
    [FullscreenLayout] occurs anywhere, as in [FullscreenLayoutProps], gets
    the separator repair only.  So [props_file], which uses the marker and
    imports [FullscreenLayoutProps] but not [FullscreenLayout], comes back
    unchanged. *)
Theorem substring_suppresses_repair (ua : char -> bool) :
  (forall content w pre post,
     fix_import_line ua content
       (MatchObj w [pre ++ py "FullscreenLayout" ++ post])
     = fix_commas ua (pre ++ py "FullscreenLayout" ++ post)
         ++ py " from '@zen/tui';")
  /\ contains usage_marker props_file = true
  /\ names (py "import { renderApp, FullscreenLayoutProps }")
     = [py "import"; py "renderApp"; py "FullscreenLayoutProps"]
  /\ fix_imports ua props_file = props_file.
Proof.
  split.
  - intros content w pre post. apply fix_import_line_imported.
    apply contains_app.
  - repeat split; vm_compute; reflexivity.
Qed.

(** ** Quote normalization *)

Lemma dquotes_app a b : dquotes (a ++ b) = dquotes a ++ dquotes b.
Proof. apply filter_app. Qed.

Lemma dquotes_blank ws : forallb is_space ws = true -> dquotes ws = [].
Proof.
  induction ws as [|c ws IH]; [reflexivity|].
  intros H. cbn [forallb] in H. apply andb_true_iff in H.
  destruct H as [Hc H]. unfold dquotes. cbn [filter].
  destruct (N.eqb dquote c) eqn:E; [|now apply IH].
  apply N.eqb_eq in E. subst c. discriminate.
Qed.

Lemma fix_import_line_repaired ua content m :
  fix_import_line ua content m
  = repaired ua content (group m 1) ++ py " from '@zen/tui';".
Proof.
  unfold fix_import_line, repaired.
  destruct (contains (py "<FullscreenLayout>") content
            && negb (contains (py "FullscreenLayout") (group m 1)));
    reflexivity.
Qed.

Section Quotes.

Variable ua : char -> bool.

Lemma fix_commas_dquotes s : dquotes (fix_commas ua s) = dquotes s.
Proof.
  apply re_sub_filter. intros w g M. apply comma_pattern_shape in M.
  destruct M as (w1 & ws & name & -> & -> & _ & _ & [_ Hws] & _).
  unfold expand, comma_template, group. cbn [flat_map nth Nat.pred m_groups].
  rewrite app_nil_r. fold (dquotes (w1 ++ py ", " ++ name)).
  fold (dquotes (w1 ++ ws ++ name)).
  rewrite !dquotes_app, (dquotes_blank _ Hws). reflexivity.
Qed.

Lemma add_fullscreen_dquotes s : dquotes (add_fullscreen ua s) = dquotes s.
Proof.
  apply re_sub_filter. intros w g M. apply brace_pattern_shape in M.
  destruct M as (w1 & ws & -> & -> & _ & _ & Hws).
  unfold expand, brace_template, group. cbn [flat_map nth Nat.pred m_groups].
  rewrite app_nil_r. fold (dquotes (w1 ++ py ", FullscreenLayout}")).
  fold (dquotes (w1 ++ ws ++ [125%N])).
  rewrite !dquotes_app, (dquotes_blank _ Hws). reflexivity.
Qed.

Lemma repaired_dquotes content stmt :
  dquotes (repaired ua content stmt) = dquotes stmt.
Proof.
  unfold repaired.
  destruct (contains (py "<FullscreenLayout>") content
            && negb (contains (py "FullscreenLayout") stmt)).
  - now rewrite add_fullscreen_dquotes, fix_commas_dquotes.
  - apply fix_commas_dquotes.
Qed.

(** Rewriting never adds a double quote. *)
Lemma re_sub_import_dquotes content s :
  List.length (dquotes (re_sub import_pattern (fix_import_line ua content) s))
  <= List.length (dquotes s).
Proof.
  apply (@re_sub_congruence
           (fun a b => List.length (dquotes a) <= List.length (dquotes b)));
    auto.
  - intros a a' b b' Ha Hb. rewrite !dquotes_app, !length_app. lia.
  - intros w g M. apply import_pattern_shape in M.
    destruct M as (stmt & -> & D). destruct D.
    rewrite fix_import_line_repaired. unfold group.
    cbn [nth Nat.pred m_groups].
    rewrite !dquotes_app, !length_app, repaired_dquotes. simpl. lia.
Qed.

Lemma from_clause_dquotes ws2 ws3 q1 q2 :
  q1 = dquote \/ q2 = dquote ->
  0 < List.length (dquotes (from_clause ws2 ws3 q1 q2)).
Proof.
  intros H. unfold from_clause.
  rewrite !dquotes_app, !length_app.
  change (q1 :: py "@zen/tui" ++ [q2; 59%N])
    with ([q1] ++ py "@zen/tui" ++ [q2] ++ [59%N]).
  rewrite !dquotes_app, !length_app.
  destruct H as [-> | ->]; simpl; lia.
Qed.

Variable world : Type.
Variable read_text : text -> world -> outcome text.
Variable write_text : text -> text -> world -> world * option text.

(** C4, amended.  Wherever a declaration of [@zen/tui] with a double quote
    around the module name stands in a file, the fixer ends the match that
    covers it with the clause [ from '@zen/tui';], so the output differs
    from the input even when no repair applies; when the file contains
    [renderApp] and the write succeeds, the processor writes the new text
    and returns [True]. *)
Theorem double_quotes_normalised
        filepath w w' content pre ws1 body ws2 ws3 q1 q2 post :
  content = pre ++ (braced_import ws1 body ++ from_clause ws2 ws3 q1 q2)
                ++ post ->
  declaration (braced_import ws1 body ++ from_clause ws2 ws3 q1 q2)
              (braced_import ws1 body) ->
  q1 = dquote \/ q2 = dquote ->
  read_text filepath w = Returned content ->
  contains (py "renderApp") content = true ->
  write_text filepath (fix_imports ua content) w = (w', None) ->
  (exists pre' x,
     pre = pre' ++ x
     /\ fix_imports ua content
        = re_sub import_pattern (fix_import_line ua content) pre'
            ++ (repaired ua content (x ++ braced_import ws1 body)
                  ++ py " from '@zen/tui';")
            ++ re_sub import_pattern (fix_import_line ua content) post)
  /\ fix_imports ua content <> content
  /\ process_file ua read_text write_text filepath w
     = Result true w' [Read filepath; Write filepath (fix_imports ua content)].
Proof.
  intros Hcontent D Hq Hr Hc Hw.
  pose (f := fix_import_line ua content).
  destruct (re_sub_to_declaration f post D pre) as (pre' & x & Epre & _ & Hs).
  assert (E : fix_imports ua content
      = re_sub import_pattern f pre'
          ++ (repaired ua content (x ++ braced_import ws1 body)
                ++ py " from '@zen/tui';")
          ++ re_sub import_pattern f post).
  { unfold fix_imports. fold f. rewrite Hcontent at 1. rewrite Hs.
    unfold f at 2. now rewrite fix_import_line_repaired. }
  assert (L : List.length (dquotes content)
      = List.length (dquotes pre') + List.length (dquotes x)
        + List.length (dquotes (braced_import ws1 body))
        + List.length (dquotes (from_clause ws2 ws3 q1 q2))
        + List.length (dquotes post)).
  { rewrite Hcontent, Epre, !dquotes_app, !length_app. lia. }
  assert (N : fix_imports ua content <> content).
  { intros Heq. apply (f_equal (fun s => List.length (dquotes s))) in Heq.
    rewrite L, E in Heq.
    rewrite !dquotes_app, !length_app, repaired_dquotes in Heq.
    rewrite !dquotes_app, !length_app in Heq.
    pose proof (re_sub_import_dquotes content pre').
    pose proof (re_sub_import_dquotes content post).
    pose proof (from_clause_dquotes ws2 ws3 Hq).
    fold f in H, H0. simpl in Heq. lia. }
  split; [now exists pre', x|]. split; [exact N|].
  unfold process_file. rewrite Hr, Hc. cbn [negb].
  apply text_eqb_neq in N. rewrite N. cbn [negb]. now rewrite Hw.
Qed.

End Quotes.

Lemma double_quotes_normalised_witness :
  fix_imports (fun _ => false) quoted_render <> quoted_render
  /\ process_file (fun _ => false) MemFS.read_text MemFS.write_text
       (py "App.tsx") [(py "App.tsx", quoted_render)]
     = Result true
         [(py "App.tsx", py "import { renderApp } from '@zen/tui';");
          (py "App.tsx", quoted_render)]
         [Read (py "App.tsx");
          Write (py "App.tsx") (py "import { renderApp } from '@zen/tui';")].
Proof.
  refine (proj2 (@double_quotes_normalised (fun _ => false) MemFS.t
           MemFS.read_text MemFS.write_text (py "App.tsx")
           [(py "App.tsx", quoted_render)]
           [(py "App.tsx", py "import { renderApp } from '@zen/tui';");
            (py "App.tsx", quoted_render)]
           quoted_render [] [32%N] (py " renderApp ") [32%N] [32%N]
           dquote dquote [] _ _ _ _ _ _));
    try (vm_compute; reflexivity).
  - apply (@declaration_intro [32%N] (py " renderApp ") [32%N] [32%N]
             dquote dquote);
      try reflexivity; try discriminate; split; try reflexivity; discriminate.
  - now left.
Defined.

(** C4, as stated, fails: [quoted_box] is a double-quoted import of
    [@zen/tui], but the file does not contain [renderApp], so the processor
    returns [False] and only reads, whatever the Unicode table: the file
    keeps its double quotes and is reported unchanged. *)
Lemma double_quotes_counterexample :
  ~ (exists ua,
       returned (process_file ua MemFS.read_text MemFS.write_text
                   (py "Box.tsx") [(py "Box.tsx", quoted_box)]) = true
       \/ trace (process_file ua MemFS.read_text MemFS.write_text
                   (py "Box.tsx") [(py "Box.tsx", quoted_box)])
          <> [Read (py "Box.tsx")]).
Proof.
  intros [ua [H | H]]; vm_compute in H; [discriminate | now apply H].
Qed.

(** ** Untouched declarations *)

(** Every match the scan reports is a match of the pattern somewhere. *)
Lemma scan_hit r m :
  forall s, In (Hit m) (scan r s) -> exists u t, match_at r u = Some (m, t).
Proof.
  intros s. induction s as [|c s IH] using (scan_ind r); [easy|].
  rewrite scan_cons.
  destruct (match_at r (c :: s)) as [[m' t]|] eqn:E.
  - destruct (m_whole m') as [|a w] eqn:Ew.
    + intros [H | H]; [discriminate | now apply (IH s)].
    + intros [H | H].
      * injection H as ->. now exists (c :: s), t.
      * apply (IH t); [|exact H].
        pose proof (match_at_shorter _ _ E Ew). simpl in *. lia.
  - intros [H | H]; [discriminate | now apply (IH s)].
Qed.

(** A braced import of a module other than [@zen/tui] is not matched where
    it stands. *)
Lemma other_module_unmatched ws1 body ws2 ws3 q1 q2 name rest :
  forallb is_space ws1 = true -> forallb not_rbrace body = true ->
  forallb is_space ws2 = true -> forallb is_space ws3 = true ->
  is_quote q1 = true -> is_quote q2 = true ->
  forallb not_quote name = true -> name <> py "@zen/tui" ->
  match_at import_pattern
    (braced_import ws1 body ++ ws2 ++ py "from" ++ ws3
       ++ q1 :: name ++ q2 :: rest) = None.
Proof.
  intros S1 Sb S2 S3 Q1 Q2 Hn Hne.
  destruct (match_at import_pattern _) as [[m t]|] eqn:E; [|reflexivity].
  exfalso. apply match_at_import_inv in E.
  destruct E as (w & stmt & _ & E & D).
  destruct D as [ws1' body' ws2' ws3' q1' q2'
                   [_ S1'] _ Sb' [_ S2'] [_ S3'] Q1' Q2'].
  unfold braced_import, from_clause in E.
  repeat (progress (simpl in E; rewrite <- ?app_assoc in E)).
  injection E as E.
  apply (span_unique is_space) in E; auto. destruct E as (_ & _ & E).
  apply (span_unique not_rbrace) in E; auto. destruct E as (_ & _ & E).
  apply (span_unique is_space) in E; auto. destruct E as (_ & _ & E).
  injection E as E.
  apply (span_unique is_space) in E; auto using quote_not_space.
  destruct E as (_ & _ & E).
  change (64%N :: 122%N :: 101%N :: 110%N :: 47%N :: 116%N :: 117%N
            :: 105%N :: q2' :: 59%N :: t)
    with (py "@zen/tui" ++ q2' :: 59%N :: t) in E.
  apply (span_unique not_quote) in E; auto.
  - now destruct E as (E & _).
  - unfold not_quote. now rewrite Q2.
  - unfold not_quote. now rewrite Q2'.
Qed.

(** An import of [react] is not matched. *)
Example react_unmatched (rest : text) :
  match_at import_pattern (py "import { useState } from 'react';" ++ rest)
  = None.
Proof.
  apply (@other_module_unmatched [32%N] (py " useState ") [32%N] [32%N]
           squote squote (py "react") (59%N :: rest));
    try reflexivity. discriminate.
Qed.

(** Where no suffix of [p] begins a match, [p] is copied. *)
Lemma re_sub_skip r repl s :
  forall p,
    (forall a b, p = a ++ b -> b <> [] -> match_at r (b ++ s) = None) ->
    re_sub r repl (p ++ s) = p ++ re_sub r repl s.
Proof.
  induction p as [|c p IH]; intros H; [reflexivity|].
  cbn [app]. rewrite re_sub_cons.
  assert (H0 : match_at r ((c :: p) ++ s) = None)
    by (apply (H []); [reflexivity | discriminate]).
  cbn [app] in H0. rewrite H0.
  f_equal. apply IH. intros a b -> Hb. now apply (H (c :: a) b).
Qed.

(** A text that begins a run ended by [x], and does not contain [x], lies
    within the run. *)
Lemma app_prefix (a : text) x r b t :
  a ++ x :: r = b ++ t -> ~ In x b -> exists l, a = b ++ l.
Proof.
  intros E Hx. apply app_eq_app in E. destruct E as (l & [[E1 E2] | [E1 E2]]).
  - now exists l.
  - destruct l as [|y l].
    + exists []. now rewrite app_nil_r in *.
    + simpl in E2. injection E2 as <- _. exfalso. apply Hx. rewrite E1.
      apply in_or_app. right. now left.
Qed.

Lemma suffix_ends (a b s : text) z : a ++ b = s ++ [z] -> b <> [] -> In z b.
Proof.
  intros E Hb. destruct (exists_last Hb) as (b0 & y & ->).
  rewrite app_assoc in E. apply app_inj_tail in E. destruct E as [_ ->].
  apply in_or_app. right. now left.
Qed.

Lemma forallb_suffix (p : char -> bool) (s a b : text) :
  forallb p s = true -> s = a ++ b -> forallb p b = true.
Proof.
  intros H ->. rewrite forallb_app in H. now apply andb_true_iff in H.
Qed.

Lemma declaration_split ws1 body ws2 ws3 q1 q2 t :
  (braced_import ws1 body ++ from_clause ws2 ws3 q1 q2) ++ t
  = (py "import" ++ ws1 ++ 123%N :: body)
      ++ 125%N :: from_clause ws2 ws3 q1 q2 ++ t.
Proof.
  unfold braced_import.
  repeat (progress (simpl; rewrite <- ?app_assoc)). reflexivity.
Qed.

Lemma declaration_opening ws1 body ws2 ws3 q1 q2 t :
  (braced_import ws1 body ++ from_clause ws2 ws3 q1 q2) ++ t
  = (py "import" ++ ws1)
      ++ 123%N :: body ++ 125%N :: from_clause ws2 ws3 q1 q2 ++ t.
Proof.
  unfold braced_import.
  repeat (progress (simpl; rewrite <- ?app_assoc)). reflexivity.
Qed.

Lemma opening_not_rbrace ws1 body :
  forallb is_space ws1 = true -> forallb not_rbrace body = true ->
  forallb not_rbrace (py "import" ++ ws1 ++ 123%N :: body) = true.
Proof.
  intros S1 Sb. rewrite !forallb_app. cbn [forallb].
  rewrite (blank_not_rbrace _ S1), Sb. reflexivity.
Qed.

(** No match begins in a text that has a [;] and no [{]: the opening
    [import {] of a match cannot run across the [;]. *)
Lemma unbraced_unmatched b post :
  forallb not_lbrace b = true -> In 59%N b ->
  match_at import_pattern (b ++ post) = None.
Proof.
  intros Hb Hs.
  destruct (match_at import_pattern _) as [[m t]|] eqn:E; [|reflexivity].
  exfalso. apply match_at_import_inv in E.
  destruct E as (w & stmt & _ & E & D).
  destruct D as [ws1 body ws2 ws3 q1 q2 [_ S1] _ _ _ _ _ _].
  rewrite declaration_opening in E. symmetry in E.
  apply app_prefix in E.
  - destruct E as (l & E).
    assert (Hin : In 59%N (py "import" ++ ws1)).
    { rewrite E. apply in_or_app. now left. }
    apply in_app_or in Hin. destruct Hin as [Hin | Hin].
    + simpl in Hin. intuition discriminate.
    + rewrite forallb_forall in S1. apply S1 in Hin. discriminate.
  - intros Hin. rewrite forallb_forall in Hb. apply Hb in Hin. discriminate.
Qed.

(** The scan of a text followed by [rest] is the scan of the text and the
    scan of [rest], when every match that begins in the text ends in it. *)
Lemma scan_split rest :
  forall pre,
    (forall a x w stmt t,
       pre = a ++ x -> x <> [] -> declaration w stmt -> x ++ rest = w ++ t ->
       exists u, x = w ++ u /\ t = u ++ rest) ->
    scan import_pattern (pre ++ rest)
    = scan import_pattern pre ++ scan import_pattern rest.
Proof.
  intros pre. induction pre as [|c pre IH] using (scan_ind import_pattern);
    intros H; [reflexivity|].
  change ((c :: pre) ++ rest) with (c :: pre ++ rest).
  rewrite !scan_cons.
  change (c :: pre ++ rest) with ((c :: pre) ++ rest).
  destruct (match_at import_pattern ((c :: pre) ++ rest))
    as [[m t]|] eqn:E.
  - apply match_at_import_inv in E. destruct E as (w & stmt & -> & E & D).
    assert (Hne : c :: pre <> []) by discriminate.
    destruct (H [] (c :: pre) w stmt t eq_refl Hne D E) as (u & E1 & ->).
    rewrite E1, (match_at_declaration u D). cbn [m_whole].
    destruct w as [|a w]; [now apply declaration_nonempty in D|].
    cbn [app]. f_equal. apply IH.
    + apply (f_equal (@List.length _)) in E1. simpl in E1.
      rewrite length_app in E1. lia.
    + intros a0 x w0 stmt0 t0 Eu. apply (H ((a :: w) ++ a0)).
      now rewrite E1, Eu, app_assoc.
  - destruct (match_at import_pattern (c :: pre)) as [[m t]|] eqn:E'.
    + apply match_at_import_inv in E'. destruct E' as (w & stmt & -> & E' & D).
      rewrite E', <- app_assoc, (match_at_declaration _ D) in E. discriminate.
    + cbn [app]. f_equal. apply IH; [lia|].
      intros a x w stmt t Ea. apply (H (c :: a)). now rewrite Ea.
Qed.

(** The first closing brace of a text, if it has one. *)
Lemma first_rbrace x :
  forallb not_rbrace x = true
  \/ exists x1 x2, x = x1 ++ 125%N :: x2 /\ forallb not_rbrace x1 = true.
Proof.
  induction x as [|c x IH]; [now left|].
  destruct (N.eqb c 125) eqn:E.
  - apply N.eqb_eq in E. subst c. right. now exists [], x.
  - destruct IH as [IH | (x1 & x2 & -> & H1)].
    + left. simpl. unfold not_rbrace at 1. now rewrite E.
    + right. exists (c :: x1), x2. split; [reflexivity|].
      simpl. unfold not_rbrace at 1. now rewrite E.
Qed.

(** A match whose closing brace lies in a text ends in that text, when the
    text is followed by a word beginning with [im]. *)
Lemma declaration_closes x1 x2 (rest' : text) w stmt t :
  forallb not_rbrace x1 = true -> declaration w stmt ->
  (x1 ++ 125%N :: x2) ++ 105%N :: 109%N :: rest' = w ++ t ->
  exists u, x1 ++ 125%N :: x2 = w ++ u /\ t = u ++ 105%N :: 109%N :: rest'.
Proof.
  intros H1 D E.
  destruct D as [ws1 body ws2 ws3 q1 q2 [_ S1] _ Sb [_ S2] [_ S3] Q1 Q2].
  pose proof (i_before_quote_clause ws2 ws3 q1 q2 S2 S3 Q1 Q2) as Hi.
  rewrite declaration_split, <- app_assoc in E. cbn [app] in E.
  apply (span_unique not_rbrace) in E;
    [| assumption | now apply opening_not_rbrace | reflexivity | reflexivity ].
  destruct E as (-> & _ & E).
  apply app_eq_app in E. destruct E as (l & [[E1 E2] | [E1 E2]]).
  - exists l. split; [|exact E2]. rewrite E1.
    unfold braced_import.
    repeat (progress (simpl; rewrite <- ?app_assoc)). reflexivity.
  - destruct l as [|i l].
    + exists []. rewrite app_nil_r in *. simpl in E2. subst. split; [|reflexivity].
      unfold braced_import.
      repeat (progress (simpl; rewrite <- ?app_assoc)). reflexivity.
    + exfalso. simpl in E2. injection E2 as <- E2.
      destruct (@i_before_quote_spec _ Hi _ _ E1) as (q & b' & -> & Hq).
      simpl in E2. injection E2 as <- _. discriminate.
Qed.

(** The clause of another module is not the clause of [@zen/tui]. *)
Lemma other_clause_differs ws2 ws3 q1 name q2 rest ws2' ws3' q1' q2' t :
  forallb is_space ws2 = true -> forallb is_space ws3 = true ->
  is_quote q1 = true -> is_quote q2 = true ->
  forallb not_quote name = true -> name <> py "@zen/tui" ->
  forallb is_space ws2' = true -> forallb is_space ws3' = true ->
  is_quote q1' = true -> is_quote q2' = true ->
  ws2 ++ py "from" ++ ws3 ++ q1 :: name ++ q2 :: rest
  <> from_clause ws2' ws3' q1' q2' ++ t.
Proof.
  intros S2 S3 Q1 Q2 Hn Hne S2' S3' Q1' Q2' E.
  unfold from_clause in E.
  repeat (progress (simpl in E; rewrite <- ?app_assoc in E)).
  apply (span_unique is_space) in E; auto. destruct E as (_ & _ & E).
  injection E as E.
  apply (span_unique is_space) in E; auto using quote_not_space.
  destruct E as (_ & _ & E).
  change (64%N :: 122%N :: 101%N :: 110%N :: 47%N :: 116%N :: 117%N
            :: 105%N :: q2' :: 59%N :: t)
    with (py "@zen/tui" ++ q2' :: 59%N :: t) in E.
  apply (span_unique not_quote) in E; auto.
  - now destruct E as (E & _).
  - unfold not_quote. now rewrite Q2.
  - unfold not_quote. now rewrite Q2'.
Qed.

Lemma space_not_lbrace ws :
  forallb is_space ws = true -> forallb not_lbrace ws = true.
Proof.
  intros H. apply forallb_impl with (p := is_space); [|exact H].
  intros c Hc. unfold not_lbrace. destruct (N.eqb c 123) eqn:E; [|reflexivity].
  apply N.eqb_eq in E. subst c. discriminate.
Qed.

Lemma quote_not_lbrace q : is_quote q = true -> not_lbrace q = true.
Proof.
  unfold is_quote. rewrite orb_true_iff, !N.eqb_eq. now intros [-> | ->].
Qed.

Section OtherModule.

Variables ws1 body ws2 ws3 name : text.
Variables q1 q2 : char.

Hypothesis S1 : forallb is_space ws1 = true.
Hypothesis Sb : forallb not_rbrace body = true.
Hypothesis S2 : forallb is_space ws2 = true.
Hypothesis S3 : forallb is_space ws3 = true.
Hypothesis Q1 : is_quote q1 = true.
Hypothesis Q2 : is_quote q2 = true.
Hypothesis name_quotes : forallb not_quote name = true.
Hypothesis name_braces : forallb not_lbrace name = true.
Hypothesis name_other : name <> py "@zen/tui".

Lemma module_import_split rest :
  module_import ws1 body ws2 ws3 q1 name q2 ++ rest
  = (py "import" ++ ws1 ++ 123%N :: body)
      ++ 125%N :: ws2 ++ py "from" ++ ws3 ++ q1 :: name ++ q2 :: 59%N :: rest.
Proof.
  unfold module_import, braced_import.
  repeat (progress (simpl; rewrite <- ?app_assoc)). reflexivity.
Qed.

(** A match that runs up to the closing brace of the import fails at the
    name of the module. *)
Lemma other_clause_unmatched y rest :
  forallb not_rbrace y = true ->
  match_at import_pattern
    (y ++ 125%N :: ws2 ++ py "from" ++ ws3 ++ q1 :: name ++ q2 :: rest) = None.
Proof.
  intros Hy.
  destruct (match_at import_pattern _) as [[m t]|] eqn:E; [|reflexivity].
  exfalso. apply match_at_import_inv in E.
  destruct E as (w & stmt & _ & E & D).
  destruct D as [ws1' body' ws2' ws3' q1' q2'
                   [_ S1'] _ Sb' [_ S2'] [_ S3'] Q1' Q2'].
  rewrite declaration_split in E.
  apply (span_unique not_rbrace) in E;
    [| assumption | now apply opening_not_rbrace | reflexivity | reflexivity ].
  destruct E as (_ & _ & E). revert E. now apply other_clause_differs.
Qed.

(** No match begins inside the import. *)
Lemma module_import_unmatched a b post :
  module_import ws1 body ws2 ws3 q1 name q2 = a ++ b -> b <> [] ->
  match_at import_pattern (b ++ post) = None.
Proof.
  intros E Hb.
  pose proof (module_import_split []) as Hs. rewrite app_nil_r, E in Hs.
  apply app_eq_app in Hs. destruct Hs as (l & [[E1 E2] | [E1 E2]]).
  - (* the match would begin at the closing brace or after it *)
    apply unbraced_unmatched.
    + apply (@forallb_suffix not_lbrace _ l b) with (2 := E2).
      repeat (progress (cbn [forallb]; rewrite ?forallb_app)).
      rewrite (space_not_lbrace _ S2), (space_not_lbrace _ S3),
        (quote_not_lbrace _ Q1), (quote_not_lbrace _ Q2), name_braces.
      reflexivity.
    + apply (@suffix_ends l b
               (125%N :: ws2 ++ py "from" ++ ws3 ++ q1 :: name ++ [q2]));
        [|exact Hb].
      rewrite <- E2. repeat (progress (simpl; rewrite <- ?app_assoc)).
      reflexivity.
  - (* the match would begin before the closing brace *)
    rewrite E2.
    replace ((l ++ 125%N :: ws2 ++ py "from" ++ ws3 ++ q1 :: name
                ++ [q2; 59%N]) ++ post)
      with (l ++ 125%N :: ws2 ++ py "from" ++ ws3 ++ q1 :: name
              ++ q2 :: 59%N :: post)
      by (repeat (progress (simpl; rewrite <- ?app_assoc)); reflexivity).
    apply other_clause_unmatched.
    apply (@forallb_suffix not_rbrace _ a l (opening_not_rbrace _ _ S1 Sb) E1).
Qed.

(** A braced import of another module comes out as it went in, wherever
    it stands, and the text before it and the text after it are rewritten
    on their own. *)
Lemma module_import_untouched repl pre post :
  re_sub import_pattern repl
    (pre ++ module_import ws1 body ws2 ws3 q1 name q2 ++ post)
  = re_sub import_pattern repl pre
      ++ module_import ws1 body ws2 ws3 q1 name q2
      ++ re_sub import_pattern repl post.
Proof.
  rewrite <- (@re_sub_skip import_pattern repl post
                (module_import ws1 body ws2 ws3 q1 name q2))
    by (intros a b; apply module_import_unmatched).
  unfold re_sub. rewrite <- flat_map_app. f_equal.
  apply scan_split. intros a x w stmt t _ Hx D E.
  destruct (first_rbrace x) as [Hf | (x1 & x2 & -> & H1)].
  - exfalso.
    pose proof (match_at_declaration t D) as M. rewrite <- E in M.
    rewrite module_import_split, app_assoc, other_clause_unmatched in M;
      [discriminate|].
    rewrite forallb_app, Hf. now apply opening_not_rbrace.
  - rewrite module_import_split in E |- *.
    apply (@declaration_closes x1 x2 _ w stmt t H1 D E).
Qed.

End OtherModule.

(** An import without a brace comes out as it went in when the braces of
    the text before it are closed. *)
Lemma plain_import_untouched repl pre s post :
  closed pre -> forallb not_lbrace s = true ->
  re_sub import_pattern repl (pre ++ plain_import s ++ post)
  = re_sub import_pattern repl pre ++ plain_import s
      ++ re_sub import_pattern repl post.
Proof.
  intros Hcl Hs.
  rewrite <- (@re_sub_skip import_pattern repl post (plain_import s)).
  - unfold re_sub. rewrite <- flat_map_app. f_equal.
    change (plain_import s ++ post)
      with (105%N :: 109%N :: (py "port" ++ s ++ [59%N]) ++ post).
    now apply scan_closed_prefix.
  - intros a b E Hb. apply unbraced_unmatched.
    + apply (@forallb_suffix not_lbrace _ a b) with (2 := E).
      unfold plain_import. rewrite !forallb_app, Hs. reflexivity.
    + apply (@suffix_ends a b (py "import" ++ s)); [|exact Hb].
      rewrite <- E. unfold plain_import. now rewrite app_assoc.
Qed.




(** ** Error handling and writes *)

Lemma reads_app a b : reads (a ++ b) = reads a ++ reads b.
Proof. apply flat_map_app. Qed.

Section ErrorHandling.

Variable ua : char -> bool.
Variable world : Type.
Variable read_text : text -> world -> outcome text.
Variable write_text : text -> text -> world -> world * option text.

Lemma process_file_reads filepath w :
  reads (trace (process_file ua read_text write_text filepath w)) = [filepath].
Proof.
  unfold process_file.
  destruct (read_text filepath w) as [content|e]; [|reflexivity].
  destruct (contains (py "renderApp") content); [|reflexivity]. cbn [negb].
  destruct (text_eqb (fix_imports ua content) content); [reflexivity|].
  cbn [negb].
  destruct (write_text filepath (fix_imports ua content) w) as [w' [e|]];
    reflexivity.
Qed.

(** Whatever happens to a file, the loop goes on to the next one. *)
Lemma main_loop_reads files :
  forall w n,
    reads (snd (main_loop ua read_text write_text files w n))
    = map tsx_file files.
Proof.
  induction files as [|rel files IH]; intros w n; [reflexivity|].
  cbn [main_loop map].
  pose proof (process_file_reads (tsx_file rel) w) as Hr.
  destruct (returned (process_file ua read_text write_text (tsx_file rel) w)).
  - specialize
      (IH (after (process_file ua read_text write_text (tsx_file rel) w))
          (S n)).
    destruct (main_loop ua read_text write_text files _ (S n))
      as [[k w'] tr].
    cbn [snd] in *. rewrite reads_app, Hr. cbn [reads flat_map app].
    fold (reads tr). now rewrite IH.
  - specialize
      (IH (after (process_file ua read_text write_text (tsx_file rel) w)) n).
    destruct (main_loop ua read_text write_text files _ n) as [[k w'] tr].
    cbn [snd] in *. now rewrite reads_app, Hr, IH.
Qed.

(** C8. An exception raised by the read, or by the write, is caught: the
    processor prints the line [Error processing <path>: <message>] and
    returns [False].  A call attempts at most one write, to the file itself,
    of the fixed text, and only when that text differs from the one read.
    The loop of [main] reads every file it is given, in order, whatever
    happened to the files before. *)
Theorem process_file_catches filepath w :
  (forall e, read_text filepath w = Raised e ->
     process_file ua read_text write_text filepath w
     = Result false w
         [Read filepath;
          Print (py "Error processing " ++ filepath ++ py ": " ++ e)])
  /\ (forall content w' e,
        read_text filepath w = Returned content ->
        contains (py "renderApp") content = true ->
        fix_imports ua content <> content ->
        write_text filepath (fix_imports ua content) w = (w', Some e) ->
        process_file ua read_text write_text filepath w
        = Result false w'
            [Read filepath; Write filepath (fix_imports ua content);
             Print (py "Error processing " ++ filepath ++ py ": " ++ e)])
  /\ List.length
       (writes (trace (process_file ua read_text write_text filepath w))) <= 1
  /\ (forall p data,
        In (p, data)
           (writes (trace (process_file ua read_text write_text filepath w))) ->
        p = filepath
        /\ exists content,
             read_text filepath w = Returned content
             /\ data = fix_imports ua content /\ data <> content)
  /\ (forall files n,
        reads (snd (main_loop ua read_text write_text files w n))
        = map tsx_file files).
Proof.
  split; [|split; [|split; [|split]]].
  - intros e Hr. unfold process_file. now rewrite Hr.
  - intros content w' e Hr Hc Hn Hw. unfold process_file.
    rewrite Hr, Hc. apply text_eqb_neq in Hn. rewrite Hn. cbn [negb].
    now rewrite Hw.
  - unfold process_file.
    destruct (read_text filepath w) as [content|e]; [|simpl; lia].
    destruct (contains (py "renderApp") content); [|simpl; lia].
    destruct (text_eqb (fix_imports ua content) content); [simpl; lia|].
    cbn [negb].
    destruct (write_text filepath (fix_imports ua content) w) as [w' [e|]];
      simpl; lia.
  - intros p data. unfold process_file.
    destruct (read_text filepath w) as [content|e]; [|simpl; tauto].
    destruct (contains (py "renderApp") content); [|simpl; tauto].
    destruct (text_eqb (fix_imports ua content) content) eqn:Hn;
      [simpl; tauto|].
    apply text_eqb_neq in Hn. cbn [negb].
    destruct (write_text filepath (fix_imports ua content) w) as [w' [e|]];
      simpl; (intros [H | []]; injection H as <- <-; split; [reflexivity|];
              exists content; auto).
  - intros files n. apply main_loop_reads.
Qed.

End ErrorHandling.

(** A file that does not exist, and a file that cannot be written to. *)
Lemma process_file_catches_witness :
  process_file (fun _ => false) MemFS.read_text MemFS.write_text
    (py "gone.tsx") []
  = Result false []
      [Read (py "gone.tsx");
       Print (py "Error processing gone.tsx: "
                ++ py "[Errno 2] No such file or directory")]
  /\ process_file (fun _ => false)
       (fun _ (_ : unit) =>
          Returned (py "import { Box renderApp } from '@zen/tui';"))
       (fun _ _ w => (w, Some (py "[Errno 13] Permission denied")))
       (py "app.tsx") tt
     = Result false tt
         [Read (py "app.tsx");
          Write (py "app.tsx") (py "import { Box, renderApp } from '@zen/tui';");
          Print (py "Error processing app.tsx: [Errno 13] Permission denied")].
Proof.
  split.
  - etransitivity.
    + apply (proj1 (process_file_catches (fun _ => false) MemFS.read_text
                      MemFS.write_text (py "gone.tsx") [])
               (py "[Errno 2] No such file or directory")).
      reflexivity.
    + vm_compute. reflexivity.
  - etransitivity.
    + apply (proj1 (proj2 (process_file_catches (fun _ => false)
                             (fun _ (_ : unit) =>
                                Returned
                                  (py "import { Box renderApp } from '@zen/tui';"))
                             (fun _ _ w =>
                                (w, Some (py "[Errno 13] Permission denied")))
                             (py "app.tsx") tt))
               (py "import { Box renderApp } from '@zen/tui';") tt
               (py "[Errno 13] Permission denied"));
        try reflexivity.
      vm_compute. discriminate.
    + vm_compute. reflexivity.
Defined.

(** A file that cannot be read is logged and counted as not fixed, and the
    file after it is still processed. *)
Example main_goes_on :
  main (fun _ => false) MemFS.read_text MemFS.write_text
    [py "gone.tsx"; py "app.tsx"]
    [(tsx_file (py "app.tsx"), py "import { Box renderApp } from '@zen/tui';")]
  = ([(tsx_file (py "app.tsx"), py "import { Box, renderApp } from '@zen/tui';");
      (tsx_file (py "app.tsx"), py "import { Box renderApp } from '@zen/tui';")],
     [Read (tsx_file (py "gone.tsx"));
      Print (py "Error processing /Users/kyle/zen/examples/gone.tsx: "
               ++ py "[Errno 2] No such file or directory");
      Read (tsx_file (py "app.tsx"));
      Write (tsx_file (py "app.tsx"))
            (py "import { Box, renderApp } from '@zen/tui';");
      Print (10003%N :: py " Fixed: app.tsx");
      Print (10%N :: py "Fixed 1 files")]).
Proof. vm_compute. reflexivity. Qed.

(** ** Layout *)

Section Layout.

Variable ua : char -> bool.

(** No code point is both a word character and a blank, provided the table
    marks no blank as alphanumeric. *)
Hypothesis blank_not_alnum : forall c, is_space c = true -> ua c = false.

Lemma word_not_space c : is_word ua c = true -> is_space c = false.
Proof.
  unfold is_word. intros Hw. destruct (is_space c) eqn:Hs; [|reflexivity].
  destruct (N.ltb c 128) eqn:L.
  - exfalso. unfold is_space, ascii_word, in_range in *.
    apply N.ltb_lt in L.
    rewrite ?orb_true_iff, ?andb_true_iff, ?N.leb_le, ?N.eqb_eq in *. lia.
  - rewrite (blank_not_alnum _ Hs) in Hw. discriminate.
Qed.

Lemma word_not_rbrace c : is_word ua c = true -> not_rbrace c = true.
Proof.
  unfold not_rbrace. destruct (N.eqb c 125) eqn:E; [|reflexivity].
  apply N.eqb_eq in E. subst c. intros H. discriminate.
Qed.

Lemma space_not_rbrace c : is_space c = true -> not_rbrace c = true.
Proof.
  unfold not_rbrace. destruct (N.eqb c 125) eqn:E; [|reflexivity].
  apply N.eqb_eq in E. subst c. intros H. discriminate.
Qed.

Lemma suffix_last (a b p : text) z :
  a ++ b = p ++ [z] -> b <> [] -> exists b0, b = b0 ++ [z].
Proof.
  intros E Hb. destruct (exists_last Hb) as (b0 & y & ->).
  rewrite app_assoc in E. apply app_inj_tail in E. destruct E as [_ ->].
  now exists b0.
Qed.

(** The last name of a list, the blanks after it and the closing brace are
    what the closing-brace pattern matches first. *)
Lemma add_fullscreen_last p z w ws :
  is_word ua z = false -> forallb not_rbrace (p ++ [z]) = true ->
  w <> [] -> forallb (is_word ua) w = true -> forallb is_space ws = true ->
  add_fullscreen ua ((p ++ [z]) ++ w ++ ws ++ [125%N])
  = (p ++ [z]) ++ w ++ py ", FullscreenLayout}".
Proof.
  intros Hz Hp Hne Hw Hws. unfold add_fullscreen.
  assert (Hwb : forallb not_rbrace w = true)
    by (apply forallb_impl with (p := is_word ua);
        [apply word_not_rbrace | exact Hw]).
  assert (Hsb : forallb not_rbrace ws = true)
    by (apply forallb_impl with (p := is_space);
        [apply space_not_rbrace | exact Hws]).
  rewrite re_sub_skip.
  - f_equal.
    assert (F : follows (brace_pattern ua) (w ++ ws ++ [125%N]) [w] []).
    { unfold brace_pattern. cbn [seq].
      apply (@F_Cat _ _ w (ws ++ [125%N]) [w] []).
      - apply (@F_Grp _ w []). apply F_Plus; auto.
        rewrite app_nil_r. destruct ws as [|c ws]; simpl; [reflexivity|].
        simpl in Hws. apply andb_true_iff in Hws. destruct Hws as [Hc _].
        destruct (is_word ua c) eqn:E; [|reflexivity].
        apply word_not_space in E. congruence.
      - apply (@F_Cat _ _ ws [125%N] [] []); [|constructor].
        apply F_Star; auto. reflexivity. }
    apply match_at_follows in F. rewrite app_nil_r in F.
    destruct w as [|x w]; [easy|].
    cbn [app] in *. rewrite re_sub_cons, F. cbn [m_whole].
    unfold expand, brace_template, group.
    cbn [flat_map nth Nat.pred m_groups]. rewrite re_sub_nil, !app_nil_r.
    reflexivity.
  - intros a b E Hb.
    destruct (match_at (brace_pattern ua) (b ++ w ++ ws ++ [125%N]))
      as [[m t]|] eqn:M; [exfalso|reflexivity].
    apply match_at_sound in M. destruct M as [E1 M].
    apply brace_pattern_shape in M.
    destruct M as (w1 & ws' & _ & Ew & Hne1 & Hw1 & Hws').
    rewrite Ew in E1. clear Ew.
    assert (Hbb : forallb not_rbrace b = true).
    { rewrite E, forallb_app in Hp. now apply andb_true_iff in Hp. }
    assert (E2 : (b ++ w ++ ws) ++ 125%N :: [] = (w1 ++ ws') ++ 125%N :: t).
    { rewrite <- !app_assoc in *. exact E1. }
    apply (span_unique not_rbrace) in E2; try reflexivity.
    + destruct E2 as (E2 & _ & _).
      apply app_eq_app in E2. destruct E2 as (l & [[E3 E4] | [E3 E4]]).
      * (* the blanks of the match would cover the name *)
        rewrite E4, !forallb_app in Hws'.
        destruct w as [|x w]; [easy|]. simpl in Hw, Hws'.
        apply andb_true_iff in Hw. destruct Hw as [Hx _].
        apply word_not_space in Hx. rewrite Hx in Hws'.
        rewrite andb_false_r in Hws'. discriminate.
      * (* or its word would begin with the whole of [b] *)
        destruct (@suffix_last a b p z (eq_sym E) Hb) as (b0 & ->).
        rewrite E3, <- app_assoc, !forallb_app in Hw1. simpl in Hw1.
        rewrite Hz in Hw1. rewrite andb_false_r in Hw1. discriminate.
    + rewrite !forallb_app, Hbb, Hwb, Hsb. reflexivity.
    + rewrite forallb_app. apply andb_true_iff. split.
      * apply forallb_impl with (p := is_word ua);
          [apply word_not_rbrace | exact Hw1].
      * apply forallb_impl with (p := is_space);
          [apply space_not_rbrace | exact Hws'].
Qed.

End Layout.

(** The blanks between the last name and the brace are consumed. *)
Example add_fullscreen_blanks :
  add_fullscreen (fun _ => false) (py "import { Box, renderApp   }")
  = py "import { Box, renderApp, FullscreenLayout}".
Proof.
  apply (@add_fullscreen_last (fun _ => false) (fun _ _ => eq_refl)
           (py "import { Box,") 32%N (py "renderApp") (py "   "));
    try reflexivity. discriminate.
Qed.

(** C10. Wherever a declaration of [@zen/tui] stands in a file, whatever
    stood between its closing brace and its semicolon is replaced by
    [ from '@zen/tui';], repair or not.  The missing-symbol
    repair replaces the last name of the list, the blanks after it and the
    closing brace by the name, [, FullscreenLayout] and the brace, so the
    blanks are gone.  Hence [spaced_file], which differs from the fixer's
    output by one blank only, is written back and reported as modified. *)
Theorem layout_normalised (ua : char -> bool) :
  (forall content pre ws1 body ws2 ws3 q1 q2 post,
     content = pre ++ (braced_import ws1 body ++ from_clause ws2 ws3 q1 q2)
                   ++ post ->
     declaration (braced_import ws1 body ++ from_clause ws2 ws3 q1 q2)
                 (braced_import ws1 body) ->
     exists pre' x,
       pre = pre' ++ x
       /\ fix_imports ua content
          = re_sub import_pattern (fix_import_line ua content) pre'
              ++ (repaired ua content (x ++ braced_import ws1 body)
                    ++ py " from '@zen/tui';")
              ++ re_sub import_pattern (fix_import_line ua content) post)
  /\ ((forall c, is_space c = true -> ua c = false) ->
      forall p z w ws,
        is_word ua z = false -> forallb not_rbrace (p ++ [z]) = true ->
        w <> [] -> forallb (is_word ua) w = true ->
        forallb is_space ws = true ->
        add_fullscreen ua ((p ++ [z]) ++ w ++ ws ++ [125%N])
        = (p ++ [z]) ++ w ++ py ", FullscreenLayout}")
  /\ fix_imports ua spaced_file = py "import { renderApp } from '@zen/tui';"
  /\ filter (fun c => negb (is_space c)) (fix_imports ua spaced_file)
     = filter (fun c => negb (is_space c)) spaced_file
  /\ process_file ua MemFS.read_text MemFS.write_text
       (py "App.tsx") [(py "App.tsx", spaced_file)]
     = Result true
         [(py "App.tsx", py "import { renderApp } from '@zen/tui';");
          (py "App.tsx", spaced_file)]
         [Read (py "App.tsx");
          Write (py "App.tsx") (py "import { renderApp } from '@zen/tui';")].
Proof.
  split; [|split; [|split; [|split]]].
  - intros content pre ws1 body ws2 ws3 q1 q2 post Hcontent D.
    pose (f := fix_import_line ua content).
    destruct (re_sub_to_declaration f post D pre)
      as (pre' & x & Epre & _ & Hs).
    exists pre', x. split; [exact Epre|].
    unfold fix_imports. fold f. rewrite Hcontent at 1. rewrite Hs.
    unfold f at 2. now rewrite fix_import_line_repaired.
  - intros H p z w ws. now apply add_fullscreen_last.
  - vm_compute. reflexivity.
  - vm_compute. reflexivity.
  - vm_compute. reflexivity.
Qed.

(** * Further properties of the script *)

(** ** What the import pattern matches *)

(** X1. The import pattern matches at the start of a text exactly when the
    text begins with a declaration of [@zen/tui]: [import], blanks, a braced
    list without closing brace inside, blanks, [from], blanks, the module
    name between two quotes of either kind, and a semicolon.  The match is
    that declaration, its group is the statement up to the closing brace,
    and nothing of what follows matters. *)
Theorem import_pattern_characterised s m t :
  match_at import_pattern s = Some (m, t)
  <-> exists w stmt, m = MatchObj w [stmt] /\ s = w ++ t /\ declaration w stmt.
Proof.
  split.
  - apply match_at_import_inv.
  - intros (w & stmt & -> & -> & D). now apply match_at_declaration.
Qed.

(** ** Texts the fixer leaves alone *)

Lemma text_eqb_refl a : text_eqb a a = true.
Proof. now apply text_eqb_eq. Qed.

(** A text none of whose suffixes begins a match is returned as it is. *)
Lemma re_sub_no_match r repl s :
  (forall a b, s = a ++ b -> b <> [] -> match_at r b = None) ->
  re_sub r repl s = s.
Proof.
  intros H. pose proof (@re_sub_skip r repl [] s) as K.
  rewrite re_sub_nil, !app_nil_r in K. apply K.
  intros a b E Hb. rewrite app_nil_r. now apply (H a b).
Qed.

Lemma declaration_contains_module w stmt a t :
  declaration w stmt -> contains (py "@zen/tui") (a ++ w ++ t) = true.
Proof.
  intros [ws1 body ws2 ws3 q1 q2 _ _ _ _ _ _ _].
  unfold from_clause.
  replace (a ++ (braced_import ws1 body
                   ++ ws2 ++ py "from" ++ ws3 ++ q1 :: py "@zen/tui"
                   ++ [q2; 59%N]) ++ t)
    with ((a ++ braced_import ws1 body ++ ws2 ++ py "from" ++ ws3 ++ [q1])
            ++ py "@zen/tui" ++ ([q2; 59%N] ++ t)).
  - apply contains_app.
  - repeat (progress (simpl; rewrite <- ?app_assoc)). reflexivity.
Qed.

Section Untouched.

Variable ua : char -> bool.
Variable world : Type.
Variable read_text : text -> world -> outcome text.
Variable write_text : text -> text -> world -> world * option text.

(** X2. A text in which the module name [@zen/tui] does not occur is
    returned by the fixer as it is, and a file with such a text is never
    written: the processor returns [False] after the read, whether or not
    the text contains [renderApp]. *)
Theorem no_module_no_change filepath w content :
  contains (py "@zen/tui") content = false ->
  read_text filepath w = Returned content ->
  fix_imports ua content = content
  /\ process_file ua read_text write_text filepath w
     = Result false w [Read filepath].
Proof.
  intros Hc Hr.
  assert (E : fix_imports ua content = content).
  { apply re_sub_no_match. intros a b -> _.
    destruct (match_at import_pattern b) as [[m t]|] eqn:M; [|reflexivity].
    apply match_at_import_inv in M. destruct M as (w0 & stmt & _ & -> & D).
    now rewrite (declaration_contains_module a t D) in Hc. }
  split; [exact E|].
  unfold process_file. rewrite Hr, E, text_eqb_refl.
  now destruct (contains (py "renderApp") content).
Qed.

End Untouched.

Lemma no_module_no_change_witness :
  fix_imports (fun _ => false)
    (py "import { Box renderApp } from '@zen/web';")
  = py "import { Box renderApp } from '@zen/web';"
  /\ process_file (fun _ => false) MemFS.read_text MemFS.write_text
       (py "Web.tsx")
       [(py "Web.tsx", py "import { Box renderApp } from '@zen/web';")]
     = Result false
         [(py "Web.tsx", py "import { Box renderApp } from '@zen/web';")]
         [Read (py "Web.tsx")].
Proof.
  apply (@no_module_no_change (fun _ => false) MemFS.t MemFS.read_text
           MemFS.write_text (py "Web.tsx")
           [(py "Web.tsx", py "import { Box renderApp } from '@zen/web';")]
           (py "import { Box renderApp } from '@zen/web';"));
    vm_compute; reflexivity.
Defined.

(** ** Separators the repair does not touch *)

(** X3. The separator repair only ever inserts a comma before [renderApp]
    or [FullscreenLayout]: a statement in which neither name occurs is
    returned as it is, also when separators are missing between its other
    names. *)
Theorem other_names_not_repaired (ua : char -> bool) (stmt : text) :
  contains (py "renderApp") stmt = false ->
  contains (py "FullscreenLayout") stmt = false ->
  fix_commas ua stmt = stmt.
Proof.
  intros H1 H2. unfold fix_commas. apply re_sub_no_match. intros a b -> _.
  destruct (match_at (comma_pattern ua) b) as [[m t]|] eqn:M; [|reflexivity].
  exfalso. apply match_at_sound in M. destruct M as [E M].
  apply comma_pattern_shape in M.
  destruct M as (w1 & ws & name & _ & Ew & _ & _ & _ & Hn).
  rewrite Ew in E. clear Ew. subst b.
  assert (C : contains name (a ++ (w1 ++ ws ++ name) ++ t) = true).
  { replace (a ++ (w1 ++ ws ++ name) ++ t)
      with ((a ++ w1 ++ ws) ++ name ++ t)
      by (rewrite <- !app_assoc; reflexivity).
    apply contains_app. }
  destruct Hn as [-> | ->]; congruence.
Qed.

Lemma other_names_not_repaired_witness :
  fix_commas (fun _ => false) (py "import { Box Text }")
  = py "import { Box Text }".
Proof.
  apply (@other_names_not_repaired (fun _ => false)
           (py "import { Box Text }")); vm_compute; reflexivity.
Defined.

(** ** What the fixer adds and what it removes *)

Lemma occurrences_app c a b :
  occurrences c (a ++ b) = occurrences c a + occurrences c b.
Proof. unfold occurrences. now rewrite filter_app, length_app. Qed.

(** A character outside a class does not occur in a run of the class. *)
Lemma occurrences_class (p : char -> bool) c ws :
  p c = false -> forallb p ws = true -> occurrences c ws = 0.
Proof.
  intros Hc. induction ws as [|x ws IH]; [reflexivity|].
  intros H. cbn [forallb] in H. apply andb_true_iff in H.
  destruct H as [Hx H]. unfold occurrences. cbn [filter].
  destruct (N.eqb c x) eqn:E; [|now apply IH].
  apply N.eqb_eq in E. subst x. congruence.
Qed.

(** A character that is not inserted does not occur in a text made of
    inserted characters. *)
Lemma occurrences_inserted c l :
  forallb (fun x => occurs x inserted) l = true ->
  occurs c inserted = false -> occurrences c l = 0.
Proof.
  intros H Hc. induction l as [|x l IH]; [reflexivity|].
  cbn [forallb] in H. apply andb_true_iff in H. destruct H as [Hx H].
  unfold occurrences. cbn [filter].
  destruct (N.eqb c x) eqn:E; [|now apply IH].
  apply N.eqb_eq in E. subst x. congruence.
Qed.

Lemma occurrences_one c x : N.eqb c x = false -> occurrences c [x] = 0.
Proof. intros H. unfold occurrences. cbn [filter]. now rewrite H. Qed.

Section Budget.

Variable ua : char -> bool.
Variable c : char.

Section Added.

Hypothesis not_inserted : occurs c inserted = false.

Lemma fix_commas_adds_nothing s :
  occurrences c (fix_commas ua s) <= occurrences c s.
Proof.
  apply (@re_sub_congruence
           (fun a b => occurrences c a <= occurrences c b)); auto.
  - intros a a' b b' Ha Hb. rewrite !occurrences_app. lia.
  - intros w g M. apply comma_pattern_shape in M.
    destruct M as (w1 & ws & name & -> & -> & _).
    unfold expand, comma_template, group.
    cbn [flat_map nth Nat.pred m_groups].
    rewrite app_nil_r, !occurrences_app.
    rewrite (@occurrences_inserted c (py ", ")) by auto. lia.
Qed.

Lemma add_fullscreen_adds_nothing s :
  occurrences c (add_fullscreen ua s) <= occurrences c s.
Proof.
  apply (@re_sub_congruence
           (fun a b => occurrences c a <= occurrences c b)); auto.
  - intros a a' b b' Ha Hb. rewrite !occurrences_app. lia.
  - intros w g M. apply brace_pattern_shape in M.
    destruct M as (w1 & ws & -> & -> & _).
    unfold expand, brace_template, group.
    cbn [flat_map nth Nat.pred m_groups].
    rewrite app_nil_r, !occurrences_app.
    rewrite (@occurrences_inserted c (py ", FullscreenLayout}")) by auto.
    lia.
Qed.

Lemma repaired_adds_nothing content stmt :
  occurrences c (repaired ua content stmt) <= occurrences c stmt.
Proof.
  unfold repaired.
  destruct (contains (py "<FullscreenLayout>") content
            && negb (contains (py "FullscreenLayout") stmt)).
  - pose proof (add_fullscreen_adds_nothing (fix_commas ua stmt)).
    pose proof (fix_commas_adds_nothing stmt). lia.
  - apply fix_commas_adds_nothing.
Qed.

End Added.

Section Kept.

Hypothesis not_space : is_space c = false.
Hypothesis not_a_quote : is_quote c = false.

Lemma fix_commas_keeps s :
  occurrences c s <= occurrences c (fix_commas ua s).
Proof.
  apply (@re_sub_congruence
           (fun a b => occurrences c b <= occurrences c a)); auto.
  - intros a a' b b' Ha Hb. rewrite !occurrences_app. lia.
  - intros w g M. apply comma_pattern_shape in M.
    destruct M as (w1 & ws & name & -> & -> & _ & _ & [_ Hws] & _).
    unfold expand, comma_template, group.
    cbn [flat_map nth Nat.pred m_groups].
    rewrite app_nil_r, !occurrences_app.
    rewrite (occurrences_class is_space c ws) by auto. lia.
Qed.

Lemma add_fullscreen_keeps s :
  occurrences c s <= occurrences c (add_fullscreen ua s).
Proof.
  apply (@re_sub_congruence
           (fun a b => occurrences c b <= occurrences c a)); auto.
  - intros a a' b b' Ha Hb. rewrite !occurrences_app. lia.
  - intros w g M. apply brace_pattern_shape in M.
    destruct M as (w1 & ws & -> & -> & _ & _ & Hws).
    unfold expand, brace_template, group.
    cbn [flat_map nth Nat.pred m_groups].
    change (py ", FullscreenLayout}")
      with (py ", FullscreenLayout" ++ [125%N]).
    rewrite app_nil_r, !occurrences_app.
    rewrite (occurrences_class is_space c ws) by auto. lia.
Qed.

Lemma repaired_keeps content stmt :
  occurrences c stmt <= occurrences c (repaired ua content stmt).
Proof.
  unfold repaired.
  destruct (contains (py "<FullscreenLayout>") content
            && negb (contains (py "FullscreenLayout") stmt)).
  - pose proof (add_fullscreen_keeps (fix_commas ua stmt)).
    pose proof (fix_commas_keeps stmt). lia.
  - apply fix_commas_keeps.
Qed.

Lemma quote_occurrences q : is_quote q = true -> occurrences c [q] = 0.
Proof.
  intros Hq. apply occurrences_one.
  destruct (N.eqb c q) eqn:E; [|reflexivity].
  apply N.eqb_eq in E. subst q. congruence.
Qed.

End Kept.

End Budget.

(** X4. The fixer adds nothing but characters of its templates: a character
    that does not occur in [, FullscreenLayout} from '@zen/tui';] occurs in
    the output at most as often as in the input. *)
Theorem only_template_characters_added (ua : char -> bool) c content :
  occurs c inserted = false ->
  occurrences c (fix_imports ua content) <= occurrences c content.
Proof.
  intros Hc. unfold fix_imports.
  apply (@re_sub_congruence
           (fun a b => occurrences c a <= occurrences c b)); auto.
  - intros a a' b b' Ha Hb. rewrite !occurrences_app. lia.
  - intros w g M. apply import_pattern_shape in M.
    destruct M as (stmt & -> & D). destruct D.
    rewrite fix_import_line_repaired. unfold group.
    cbn [nth Nat.pred m_groups]. rewrite !occurrences_app.
    pose proof (@repaired_adds_nothing ua c Hc content (braced_import ws1 body)).
    rewrite (@occurrences_inserted c (py " from '@zen/tui';")) by auto. lia.
Qed.

Lemma only_template_characters_added_witness :
  occurrences 123%N
    (fix_imports (fun _ => false)
       (py "import { Box renderApp } from '@zen/tui';<FullscreenLayout>"))
  <= occurrences 123%N
       (py "import { Box renderApp } from '@zen/tui';<FullscreenLayout>").
Proof.
  apply (@only_template_characters_added (fun _ => false) 123%N
    (py "import { Box renderApp } from '@zen/tui';<FullscreenLayout>")).
  vm_compute. reflexivity.
Defined.

(** X5. The fixer removes nothing but blanks and quotes: a character that
    is neither occurs in the output at least as often as in the input. *)
Theorem only_blanks_and_quotes_removed (ua : char -> bool) c content :
  is_space c = false -> is_quote c = false ->
  occurrences c content <= occurrences c (fix_imports ua content).
Proof.
  intros Hs Hq. unfold fix_imports.
  apply (@re_sub_congruence
           (fun a b => occurrences c b <= occurrences c a)); auto.
  - intros a a' b b' Ha Hb. rewrite !occurrences_app. lia.
  - intros w g M. apply import_pattern_shape in M.
    destruct M as (stmt & -> & D).
    destruct D as [ws1 body ws2 ws3 q1 q2 _ _ _ [_ S2] [_ S3] Q1 Q2].
    rewrite fix_import_line_repaired. unfold group, from_clause.
    cbn [nth Nat.pred m_groups].
    pose proof (@repaired_keeps ua c Hs content (braced_import ws1 body)).
    change (py " from '@zen/tui';")
      with ([32%N] ++ py "from" ++ [32%N; 39%N] ++ py "@zen/tui"
              ++ [39%N] ++ [59%N]).
    change (q1 :: py "@zen/tui" ++ [q2; 59%N])
      with ([q1] ++ py "@zen/tui" ++ [q2] ++ [59%N]).
    rewrite !occurrences_app.
    rewrite (occurrences_class is_space c ws2),
            (occurrences_class is_space c ws3) by auto.
    rewrite (@quote_occurrences c Hq q1 Q1), (@quote_occurrences c Hq q2 Q2).
    lia.
Qed.

Lemma only_blanks_and_quotes_removed_witness :
  occurrences 125%N (py "import { renderApp }  from '@zen/tui';")
  <= occurrences 125%N
       (fix_imports (fun _ => false)
          (py "import { renderApp }  from '@zen/tui';")).
Proof.
  apply (@only_blanks_and_quotes_removed (fun _ => false) 125%N
           (py "import { renderApp }  from '@zen/tui';")); reflexivity.
Defined.

Lemma filter_plain_blank ws :
  forallb is_space ws = true -> filter plain ws = [].
Proof.
  induction ws as [|x ws IH]; [reflexivity|].
  intros H. cbn [forallb] in H. apply andb_true_iff in H.
  destruct H as [Hx H]. cbn [filter]. unfold plain at 1. rewrite Hx.
  now apply IH.
Qed.

Lemma filter_plain_quote q : is_quote q = true -> filter plain [q] = [].
Proof.
  intros H. cbn [filter]. unfold plain. rewrite H.
  now rewrite orb_true_r.
Qed.

Lemma fix_commas_plain ua s : filter plain (fix_commas ua s) = filter plain s.
Proof.
  apply re_sub_filter. intros w g M. apply comma_pattern_shape in M.
  destruct M as (w1 & ws & name & -> & -> & _ & _ & [_ Hws] & _).
  unfold expand, comma_template, group.
  cbn [flat_map nth Nat.pred m_groups].
  rewrite app_nil_r, !filter_app, (filter_plain_blank _ Hws). reflexivity.
Qed.

(** X6. In a file without the usage marker the fixer changes blanks, commas
    and quotes only: with those removed, the output is the input. *)
Theorem unmarked_changes_separators_only (ua : char -> bool) content :
  contains (py "<FullscreenLayout>") content = false ->
  filter plain (fix_imports ua content) = filter plain content.
Proof.
  intros Hm. unfold fix_imports. apply re_sub_filter.
  intros w g M. apply import_pattern_shape in M.
  destruct M as (stmt & -> & D).
  destruct D as [ws1 body ws2 ws3 q1 q2 _ _ _ [_ S2] [_ S3] Q1 Q2].
  unfold fix_import_line. rewrite Hm. unfold group, from_clause.
  cbn [nth Nat.pred m_groups andb].
  change (q1 :: py "@zen/tui" ++ [q2; 59%N])
    with ([q1] ++ py "@zen/tui" ++ [q2] ++ [59%N]).
  rewrite !filter_app, fix_commas_plain.
  rewrite (filter_plain_blank _ S2), (filter_plain_blank _ S3).
  rewrite (filter_plain_quote _ Q1), (filter_plain_quote _ Q2).
  reflexivity.
Qed.

Lemma unmarked_changes_separators_only_witness :
  filter plain
    (fix_imports (fun _ => false)
       (py "import { Box renderApp }  from '@zen/tui';"))
  = py "import{BoxrenderApp}from@zen/tui;".
Proof.
  apply (@unmarked_changes_separators_only (fun _ => false)
           (py "import { Box renderApp }  from '@zen/tui';")).
  vm_compute. reflexivity.
Defined.

(** ** A list that does not end with a name *)

Section TrailingSeparator.

Variable ua : char -> bool.
Hypothesis blank_not_alnum : forall c, is_space c = true -> ua c = false.

(** X7. The closing-brace pattern needs a name right before the blanks
    and the brace.  A statement whose only closing brace is its last
    character and in which the last character before the blanks and the
    brace is neither a word character nor a blank, such as the comma of
    [{ a, }], is returned by the missing-symbol repair as it is:
    [FullscreenLayout] is not added. *)
Theorem trailing_separator_blocks_symbol p z ws :
  is_word ua z = false -> is_space z = false ->
  forallb not_rbrace (p ++ [z]) = true -> forallb is_space ws = true ->
  add_fullscreen ua ((p ++ [z]) ++ ws ++ [125%N])
  = (p ++ [z]) ++ ws ++ [125%N].
Proof.
  intros Hz Hzs Hp Hws. unfold add_fullscreen. apply re_sub_no_match.
  intros a b E Hb.
  destruct (match_at (brace_pattern ua) b) as [[m t]|] eqn:M;
    [exfalso|reflexivity].
  apply match_at_sound in M. destruct M as [E1 M].
  apply brace_pattern_shape in M.
  destruct M as (w1 & ws' & _ & Ew & Hne1 & Hw1 & Hws').
  rewrite Ew in E1. clear Ew.
  rewrite app_assoc in E.
  destruct (@suffix_last a b ((p ++ [z]) ++ ws) 125%N (eq_sym E) Hb)
    as (b0 & ->).
  rewrite app_assoc in E. apply app_inj_tail in E. destruct E as [E _].
  assert (Hall : forallb not_rbrace ((p ++ [z]) ++ ws) = true).
  { rewrite forallb_app, Hp. now apply blank_not_rbrace. }
  rewrite E, forallb_app in Hall. apply andb_true_iff in Hall.
  destruct Hall as [_ Hb0].
  assert (E2 : b0 ++ 125%N :: [] = (w1 ++ ws') ++ 125%N :: t).
  { rewrite <- !app_assoc in *. exact E1. }
  apply (span_unique not_rbrace) in E2; try reflexivity; auto.
  2:{ rewrite forallb_app. apply andb_true_iff. split.
      - apply forallb_impl with (p := is_word ua);
          [apply word_not_rbrace | exact Hw1].
      - now apply blank_not_rbrace. }
  destruct E2 as (-> & _ & _).
  destruct (exists_last Hne1) as (w1' & y & ->).
  rewrite forallb_app in Hw1. apply andb_true_iff in Hw1.
  destruct Hw1 as [_ Hy]. simpl in Hy. rewrite andb_true_r in Hy.
  rewrite app_assoc in E.
  apply app_eq_app in E. destruct E as (l & [[E3 E4] | [E3 E4]]).
  - (* the blanks of the match would begin before those of the statement *)
    destruct (list_eq_dec N.eq_dec l []) as [-> | Hl].
    + rewrite app_nil_r, app_assoc in E3. apply app_inj_tail in E3.
      destruct E3 as [_ ->]. congruence.
    + destruct (exists_last Hl) as (l' & x & ->).
      rewrite E4, !forallb_app in Hws'. simpl in Hws'.
      rewrite !app_assoc in E3. apply app_inj_tail in E3.
      destruct E3 as [_ <-].
      rewrite Hzs in Hws'. rewrite !andb_false_r in Hws'. discriminate.
  - (* or the name of the match would end inside them *)
    destruct (list_eq_dec N.eq_dec l []) as [-> | Hl].
    + rewrite app_nil_r, app_assoc in E3. apply app_inj_tail in E3.
      destruct E3 as [_ <-]. congruence.
    + destruct (exists_last Hl) as (l' & x & ->).
      rewrite E4, !forallb_app in Hws. simpl in Hws.
      rewrite !app_assoc in E3. apply app_inj_tail in E3.
      destruct E3 as [_ ->].
      apply (word_not_space ua blank_not_alnum) in Hy.
      rewrite Hy in Hws. rewrite !andb_false_r in Hws. discriminate.
Qed.

End TrailingSeparator.

Lemma trailing_separator_blocks_symbol_witness :
  add_fullscreen (fun _ => false) (py "import { Box, renderApp, }")
  = py "import { Box, renderApp, }".
Proof.
  apply (@trailing_separator_blocks_symbol (fun _ => false)
           (fun _ _ => eq_refl) (py "import { Box, renderApp") 44%N
           [32%N]); reflexivity.
Defined.

(** ** What the processor reports and what [main] counts *)

Lemma writes_app a b : writes (a ++ b) = writes a ++ writes b.
Proof. apply flat_map_app. Qed.

Lemma confirmations_app a b :
  confirmations (a ++ b) = confirmations a ++ confirmations b.
Proof. apply flat_map_app. Qed.

Section Reports.

Variable ua : char -> bool.
Variable world : Type.
Variable read_text : text -> world -> outcome text.
Variable write_text : text -> text -> world -> world * option text.

(** X8. The processor returns [True] exactly when the file was read, its
    text contains [renderApp], the fixed text differs from it and the write
    of the fixed text did not raise; and a call that attempts no write
    leaves the file system as it was. *)
Theorem process_file_reports filepath w :
  (returned (process_file ua read_text write_text filepath w) = true
   <-> exists content w',
         read_text filepath w = Returned content
         /\ contains (py "renderApp") content = true
         /\ fix_imports ua content <> content
         /\ write_text filepath (fix_imports ua content) w = (w', None))
  /\ (writes (trace (process_file ua read_text write_text filepath w)) = []
      -> after (process_file ua read_text write_text filepath w) = w).
Proof.
  unfold process_file.
  destruct (read_text filepath w) as [content|e].
  2:{ split; [|reflexivity]. split; [discriminate|].
      intros (c0 & w' & H & _). discriminate. }
  destruct (contains (py "renderApp") content) eqn:Hc; cbn [negb].
  2:{ split; [|reflexivity]. split; [discriminate|].
      intros (c0 & w' & H & Hc' & _). injection H as <-. congruence. }
  destruct (text_eqb (fix_imports ua content) content) eqn:Hn; cbn [negb].
  { apply text_eqb_eq in Hn. split; [|reflexivity].
    split; [discriminate|].
    intros (c0 & w' & H & _ & Hne & _). injection H as <-. contradiction. }
  apply text_eqb_neq in Hn.
  destruct (write_text filepath (fix_imports ua content) w) as [w' [e|]] eqn:Hw.
  - split; [|discriminate]. split; [discriminate|].
    intros (c0 & w'' & H & _ & _ & Hw'). injection H as <-.
    rewrite Hw in Hw'. discriminate.
  - split; [|discriminate]. split; [|reflexivity].
    intros _. exists content, w'. auto.
Qed.

Lemma process_file_trace filepath w :
  confirmations (trace (process_file ua read_text write_text filepath w)) = []
  /\ List.length
       (writes (trace (process_file ua read_text write_text filepath w))) <= 1
  /\ (returned (process_file ua read_text write_text filepath w) = true ->
      List.length
        (writes (trace (process_file ua read_text write_text filepath w))) = 1)
  /\ (forall p d,
        In (p, d)
           (writes (trace (process_file ua read_text write_text filepath w))) ->
        p = filepath).
Proof.
  unfold process_file.
  destruct (read_text filepath w) as [content|e].
  2:{ repeat split; simpl; try lia; try discriminate; tauto. }
  destruct (contains (py "renderApp") content); cbn [negb].
  2:{ repeat split; simpl; try lia; try discriminate; tauto. }
  destruct (text_eqb (fix_imports ua content) content); cbn [negb].
  { repeat split; simpl; try lia; try discriminate; tauto. }
  destruct (write_text filepath (fix_imports ua content) w) as [w' [e|]];
    repeat split; simpl; try lia; try discriminate;
    intros p d [H | []]; now injection H as <- _.
Qed.

Lemma writes_print l tr : writes (Print l :: tr) = writes tr.
Proof. reflexivity. Qed.

Lemma main_loop_count files :
  forall w n k w' tr,
    main_loop ua read_text write_text files w n = (k, w', tr) ->
    k = n + List.length (confirmations tr)
    /\ List.length (confirmations tr) <= List.length (writes tr)
    /\ List.length (writes tr) <= List.length files
    /\ (forall l, In l (confirmations tr) ->
          exists rel, In rel files /\ l = py " Fixed: " ++ rel)
    /\ (forall p d, In (p, d) (writes tr) ->
          exists rel, In rel files /\ p = tsx_file rel).
Proof.
  induction files as [|rel files IH]; intros w n k w' tr H.
  - injection H as <- <- <-. simpl.
    split; [lia|]. split; [lia|]. split; [lia|]. split; tauto.
  - cbn [main_loop] in H.
    destruct (process_file_trace (tsx_file rel) w) as (Hc & Hw1 & Ht & Hp).
    destruct (returned (process_file ua read_text write_text
                          (tsx_file rel) w)) eqn:Hr.
    + destruct (main_loop ua read_text write_text files _ (S n))
        as [[k0 w0] tr0] eqn:E.
      injection H as <- <- <-.
      destruct (IH _ _ _ _ _ E) as (Ik & Icw & Iwf & Icl & Iwl).
      rewrite confirmations_app, writes_app, writes_print, !length_app, Hc.
      cbn [confirmations flat_map app N.eqb Pos.eqb List.length].
      fold (confirmations tr0).
      specialize (Ht eq_refl). cbn [List.length].
      split; [lia|]. split; [lia|]. split; [lia|]. split.
      * intros l [<- | Hl]; [exists rel; split; [now left|reflexivity]|].
        destruct (Icl l Hl) as (r & Hin & ->). exists r. split; [now right|].
        reflexivity.
      * intros p d Hin. apply in_app_or in Hin. destruct Hin as [Hin | Hin].
        -- exists rel. split; [now left | now apply (Hp p d)].
        -- destruct (Iwl p d Hin) as (r & Hr' & ->). exists r.
           split; [now right | reflexivity].
    + destruct (main_loop ua read_text write_text files _ n)
        as [[k0 w0] tr0] eqn:E.
      injection H as <- <- <-.
      destruct (IH _ _ _ _ _ E) as (Ik & Icw & Iwf & Icl & Iwl).
      rewrite confirmations_app, writes_app, !length_app, Hc.
      cbn [app List.length].
      split; [lia|]. split; [lia|]. split; [lia|]. split.
      * intros l Hl. destruct (Icl l Hl) as (r & Hin & ->). exists r.
        split; [now right | reflexivity].
      * intros p d Hin. apply in_app_or in Hin. destruct Hin as [Hin | Hin].
        -- exists rel. split; [now left | now apply (Hp p d)].
        -- destruct (Iwl p d Hin) as (r & Hr' & ->). exists r.
           split; [now right | reflexivity].
Qed.

(** X9. The last line [main] prints is [Fixed k files] after a blank
    line, and [k] is the number of confirmation lines printed before it:
    one per file for which the processor returned [True], each naming one
    of the files by its relative path.  There are at most as many of them
    as writes, and at most as many writes as files. *)
Theorem main_reports_count files w :
  exists tr k,
    snd (main ua read_text write_text files w)
    = tr ++ [Print (10%N :: py "Fixed " ++ decimal k ++ py " files")]
    /\ k = List.length (confirmations tr)
    /\ k <= List.length (writes tr)
    /\ List.length (writes tr) <= List.length files
    /\ (forall l, In l (confirmations tr) ->
          exists rel, In rel files /\ l = py " Fixed: " ++ rel).
Proof.
  unfold main.
  destruct (main_loop ua read_text write_text files w 0)
    as [[k w'] tr] eqn:E.
  destruct (main_loop_count _ _ _ E) as (Hk & Hcw & Hwf & Hcl & _).
  exists tr, k. cbn [snd].
  split; [reflexivity|]. split; [lia|]. split; [lia|]. split; [lia|].
  exact Hcl.
Qed.

(** X10. [main] writes to no file but those it was given: every write of
    its trace goes to the path of one of the files under the examples
    directory. *)
Theorem main_writes_only_listed files w p d :
  In (p, d) (writes (snd (main ua read_text write_text files w))) ->
  exists rel, In rel files /\ p = tsx_file rel.
Proof.
  unfold main.
  destruct (main_loop ua read_text write_text files w 0)
    as [[k w'] tr] eqn:E.
  destruct (main_loop_count _ _ _ E) as (_ & _ & _ & _ & Hwl).
  cbn [snd]. rewrite writes_app. cbn [writes flat_map app].
  rewrite app_nil_r. apply Hwl.
Qed.

End Reports.

Lemma main_writes_only_listed_witness :
  exists rel,
    In rel [py "gone.tsx"; py "app.tsx"]
    /\ tsx_file (py "app.tsx") = tsx_file rel.
Proof.
  apply (@main_writes_only_listed (fun _ => false) MemFS.t MemFS.read_text
           MemFS.write_text [py "gone.tsx"; py "app.tsx"]
           [(tsx_file (py "app.tsx"),
             py "import { Box renderApp } from '@zen/tui';")]
           (tsx_file (py "app.tsx"))
           (py "import { Box, renderApp } from '@zen/tui';")).
  vm_compute. now left.
Defined.

(** ** The separator repair, in general *)

Lemma run_Cat_eq (R : Type) r1 r2 s g
      (k : text -> list text -> text -> option R) :
  run (Cat r1 r2) s g k
  = run r1 s g (fun w1 g1 s1 =>
      run r2 s1 g1 (fun w2 g2 s2 => k (w1 ++ w2) g2 s2)).
Proof. reflexivity. Qed.

Lemma run_Grp_eq (R : Type) r s g
      (k : text -> list text -> text -> option R) :
  run (Grp r) s g k = run r s g (fun w g1 s1 => k w (g1 ++ [w]) s1).
Proof. reflexivity. Qed.

(** The alternation of the separator pattern takes either name. *)
Lemma run_names (R : Type) name t g
      (k : text -> list text -> text -> option R) :
  name = py "renderApp" \/ name = py "FullscreenLayout" ->
  run (Alt (lit (py "renderApp")) (lit (py "FullscreenLayout")))
      (name ++ t) g k
  = k name g t.
Proof.
  intros [-> | ->]; simpl;
    match goal with
    | |- context [k ?n g t] => destruct (k n g t) eqn:E
    end; symmetry; exact E.
Qed.

Lemma name_is_word ua name :
  name = py "renderApp" \/ name = py "FullscreenLayout" ->
  forallb (is_word ua) name = true /\ name <> []
  /\ exists c name', name = c :: name' /\ is_space c = false.
Proof.
  intros [-> | ->]; (split; [reflexivity|]; split; [discriminate|]);
    eexists _, _; split; reflexivity.
Qed.

Section SeparatorRepair.

Variable ua : char -> bool.
Hypothesis blank_not_alnum : forall c, is_space c = true -> ua c = false.

Lemma space_not_word c : is_space c = true -> is_word ua c = false.
Proof.
  intros H. destruct (is_word ua c) eqn:E; [|reflexivity].
  apply (word_not_space ua blank_not_alnum) in E. congruence.
Qed.

(** A name, blanks and one of the two names are matched as they stand. *)
Lemma match_at_gap w ws name rest :
  w <> [] -> forallb (is_word ua) w = true -> blank ws ->
  name = py "renderApp" \/ name = py "FullscreenLayout" ->
  match_at (comma_pattern ua) (w ++ ws ++ name ++ rest)
  = Some (MatchObj (w ++ ws ++ name) [w; name], rest).
Proof.
  intros Hne Hw [Hnws Hws] Hn.
  destruct (name_is_word ua Hn) as (_ & _ & c & name' & En & Hc).
  unfold match_at, comma_pattern. cbn [seq].
  rewrite run_Cat_eq, run_Grp_eq.
  assert (S1 : stops (is_word ua) (ws ++ name ++ rest)).
  { destruct ws as [|x ws]; [easy|]. simpl in *.
    apply andb_true_iff in Hws. destruct Hws as [Hx _].
    now apply space_not_word. }
  apply (run_follows
           (@F_Plus (is_word ua) w (ws ++ name ++ rest) Hne Hw S1)).
  cbn beta. rewrite run_Cat_eq.
  assert (S2 : stops is_space (name ++ rest)).
  { rewrite En. exact Hc. }
  apply (run_follows (@F_Plus is_space ws (name ++ rest) Hnws Hws S2)).
  cbn beta. rewrite run_Grp_eq, run_names by exact Hn.
  cbn [app]. reflexivity.
Qed.

(** One of the two names at the head of a text that begins with a name and
    blanks is a prefix of that name. *)
Lemma name_in_word name t w ws r :
  name = py "renderApp" \/ name = py "FullscreenLayout" ->
  blank ws -> name ++ t = w ++ ws ++ r -> starts_with name w = true.
Proof.
  intros Hn [Hnws Hws] E.
  destruct (name_is_word ua Hn) as (Hname & _).
  apply app_eq_app in E. destruct E as (l & [[E1 E2] | [E1 E2]]).
  - destruct l as [|x l].
    + rewrite app_nil_r in E1. subst w.
      rewrite <- (app_nil_r name) at 2. apply starts_with_app.
    + exfalso. destruct ws as [|y ws]; [easy|].
      cbn [app] in E2. injection E2 as <- _.
      simpl in Hws. apply andb_true_iff in Hws. destruct Hws as [Hy _].
      rewrite E1, forallb_app in Hname. simpl in Hname.
      rewrite (space_not_word _ Hy) in Hname.
      rewrite andb_false_r in Hname. discriminate.
  - rewrite E1. apply starts_with_app.
Qed.

(** X11. The separator repair, in general.  In a statement, let a name
    stand before blanks and [renderApp] or [FullscreenLayout], where the
    name does not itself begin with one of the two, the text before the
    name does not end in a word character and contains neither of the two.
    Then the blanks are replaced by a comma and one blank, the text before
    is kept, and the repair goes on after the second name. *)
Theorem separator_inserted p w ws name rest :
  (forall p0 z, p = p0 ++ [z] -> is_word ua z = false) ->
  contains (py "renderApp") p = false ->
  contains (py "FullscreenLayout") p = false ->
  w <> [] -> forallb (is_word ua) w = true ->
  starts_with (py "renderApp") w = false ->
  starts_with (py "FullscreenLayout") w = false ->
  blank ws ->
  name = py "renderApp" \/ name = py "FullscreenLayout" ->
  fix_commas ua (p ++ w ++ ws ++ name ++ rest)
  = p ++ w ++ py ", " ++ name ++ fix_commas ua rest.
Proof.
  intros Hlast Hc1 Hc2 Hne Hw Hs1 Hs2 Hb Hn. unfold fix_commas.
  assert (Hstart : forall name' t,
            name' = py "renderApp" \/ name' = py "FullscreenLayout" ->
            name' ++ t = w ++ ws ++ name ++ rest -> False).
  { intros name' t Hn' E. pose proof (name_in_word _ _ _ Hn' Hb E) as H.
    destruct Hn' as [-> | ->]; congruence. }
  rewrite re_sub_skip.
  - f_equal. pose proof (match_at_gap rest Hne Hw Hb Hn) as M.
    destruct w as [|x w0]; [easy|]. cbn [app] in M |- *.
    rewrite re_sub_cons, M. cbn [m_whole].
    unfold expand, comma_template, group.
    cbn [flat_map nth Nat.pred m_groups app].
    rewrite app_nil_r, <- !app_assoc. reflexivity.
  - intros a b Ep Hbne.
    destruct (match_at (comma_pattern ua) (b ++ w ++ ws ++ name ++ rest))
      as [[m t]|] eqn:M; [exfalso|reflexivity].
    apply match_at_sound in M. destruct M as [E M].
    apply comma_pattern_shape in M.
    destruct M as (w1 & ws' & name' & _ & Ew & Hne1 & Hw1 & [_ Hws'] & Hn').
    rewrite Ew in E. clear Ew.
    destruct (name_is_word ua Hn') as (Hname' & _).
    destruct (exists_last Hbne) as (b0 & z & ->).
    assert (Hz : is_word ua z = false).
    { apply (Hlast (a ++ b0)). now rewrite Ep, app_assoc. }
    assert (E' : (b0 ++ [z]) ++ w ++ ws ++ name ++ rest
                 = (w1 ++ ws') ++ name' ++ t).
    { rewrite E, <- !app_assoc. reflexivity. }
    clear E. apply app_eq_app in E'.
    destruct E' as (l & [[E1 E2] | [E1 E2]]).
    + (* the match would end in the text before the name *)
      destruct l as [|y l].
      { apply (Hstart name' t Hn'). exact E2. }
      apply app_eq_app in E2. destruct E2 as (l2 & [[E3 E4] | [E3 E4]]).
      * (* its second name would cover the end of that text *)
        assert (Hl : y :: l <> []) by discriminate.
        destruct (exists_last Hl) as (l' & z' & El). rewrite El in *.
        rewrite !app_assoc in E1. apply app_inj_tail in E1.
        destruct E1 as [_ ->].
        rewrite E3, <- app_assoc, !forallb_app in Hname'. simpl in Hname'.
        rewrite Hz in Hname'. rewrite !andb_false_r in Hname'.
        discriminate.
      * (* or lie in that text *)
        assert (C : contains name' p = true).
        { rewrite Ep, E1, E3.
          replace (a ++ (w1 ++ ws') ++ name' ++ l2)
            with ((a ++ w1 ++ ws') ++ name' ++ l2)
            by (rewrite <- !app_assoc; reflexivity).
          apply contains_app. }
        destruct Hn' as [-> | ->]; congruence.
    + (* the match would go on after the text before the name *)
      apply app_eq_app in E1. destruct E1 as (l3 & [[E3 E4] | [E3 E4]]).
      * (* its first name would cover the end of that text *)
        rewrite E3, !forallb_app in Hw1. simpl in Hw1.
        rewrite Hz in Hw1. rewrite !andb_false_r in Hw1. discriminate.
      * (* or its blanks would begin in that text *)
        destruct l as [|y l].
        { apply (Hstart name' t Hn'). now rewrite E2. }
        destruct w as [|x w0]; [easy|].
        cbn [app] in E2. injection E2 as -> _.
        simpl in Hw. apply andb_true_iff in Hw. destruct Hw as [Hx _].
        rewrite E4, !forallb_app in Hws'. simpl in Hws'.
        apply (word_not_space ua blank_not_alnum) in Hx.
        rewrite Hx in Hws'. rewrite !andb_false_r in Hws'. discriminate.
Qed.

End SeparatorRepair.

Lemma separator_inserted_witness :
  fix_commas (fun _ => false) (py "import { Box renderApp }")
  = py "import { Box, renderApp }".
Proof.
  apply (@separator_inserted (fun _ => false) (fun _ _ => eq_refl)
           (py "import { ") (py "Box") [32%N] (py "renderApp") (py " }"));
    try reflexivity; try discriminate.
  - intros p0 z E.
    assert (H : last (py "import { ") 0%N = last (p0 ++ [z]) 0%N)
      by now rewrite E.
    rewrite last_last in H. now subst z.
  - split; [discriminate | reflexivity].
  - now left.
Defined.
